(** * mutagen-tagger: genre lookup through a provider fallback chain

    A shallow embedding of [mutagen-tagger.py]: the provider adapters, the
    fallback resolver [get_genre], the per-file pipeline [process_file] and
    the batch driver of [main] (file enumeration and report).

    Conventions of the embedding.
    - Python [str] is [string]; [None]-or-[str] values are [option string]
      and Python truthiness on them is [Py.truthy].
    - The outside world (web services, tag library, clock, file system) is a
      value of an arbitrary type [W].  An external call is a function
      [W -> outcome A * W]; the program threads a [state] made of the world
      and of the chronological [trace] of the external calls it performed.
    - Exceptions derived from Python's [Exception] are values of [exn]; a
      call that raises yields [Exc e].  [try]/[except] is written out by
      matching on the outcome.
    - [logging] calls only print; they are left out of the embedding.
    - A [string] stands for a [str] of ASCII characters: on such strings
      [Py.lower], [Py.title] and [Py.strip] are Python's methods.  The
      characters outside ASCII, whose case mapping and white space follow
      the Unicode tables, are outside the embedding: a statement that
      depends on the case or on the white space of strings that the outside
      world supplies assumes that these strings are ASCII ([Py.isascii]).
    - A function that calls itself takes the number of nested calls that
      still fit under the recursion limit of the interpreter; its result
      is [None] when the limit is reached, and nothing is stated about
      such a run. *)

From Stdlib Require Import List String Ascii ZArith Lia Bool Arith.
From Stdlib Require Import Sorted Permutation DecimalString DecimalNat.
Import ListNotations.
Open Scope string_scope.
Open Scope nat_scope.

(* ================================================================== *)
(** * Definitions *)
(* ================================================================== *)

(** ** Python built-ins used by the script *)

Module Py.

Definition is_upper (c : ascii) : bool :=
  let n := nat_of_ascii c in (65 <=? n) && (n <=? 90).

Definition is_lower (c : ascii) : bool :=
  let n := nat_of_ascii c in (97 <=? n) && (n <=? 122).

Definition to_lower (c : ascii) : ascii :=
  if is_upper c then ascii_of_nat (nat_of_ascii c + 32) else c.

Definition to_upper (c : ascii) : ascii :=
  if is_lower c then ascii_of_nat (nat_of_ascii c - 32) else c.

(** [str.isspace] on one ASCII character: TAB..CR, FS..US and the blank. *)
Definition is_space (c : ascii) : bool :=
  let n := nat_of_ascii c in
  ((9 <=? n) && (n <=? 13)) || ((28 <=? n) && (n <=? 32)).

(** [s.isascii()] *)
Fixpoint isascii (s : string) : bool :=
  match s with
  | EmptyString => true
  | String c s' => (nat_of_ascii c <? 128) && isascii s'
  end.

(** [s.lower()], for an ASCII string. *)
Fixpoint lower (s : string) : string :=
  match s with
  | EmptyString => EmptyString
  | String c s' => String (to_lower c) (lower s')
  end.

(** [s.title()], for an ASCII string: a cased character is upper-cased
    when the previous character is not cased and lower-cased when it is. *)
Fixpoint title_from (previous_is_cased : bool) (s : string) : string :=
  match s with
  | EmptyString => EmptyString
  | String c s' =>
      if is_lower c || is_upper c
      then String (if previous_is_cased then to_lower c else to_upper c)
                  (title_from true s')
      else String c (title_from false s')
  end.

Definition title (s : string) : string := title_from false s.

(** [s.strip()], for an ASCII string. *)
Fixpoint lstrip (s : string) : string :=
  match s with
  | EmptyString => EmptyString
  | String c s' => if is_space c then lstrip s' else s
  end.

Fixpoint rstrip (s : string) : string :=
  match s with
  | EmptyString => EmptyString
  | String c s' =>
      match rstrip s' with
      | EmptyString => if is_space c then EmptyString else String c EmptyString
      | r => String c r
      end
  end.

Definition strip (s : string) : string := rstrip (lstrip s).

(** [sep.join(l)] *)
Definition join (sep : string) (l : list string) : string := String.concat sep l.

(** [s.endswith(suffix)] *)
Definition endswith (s suffix : string) : bool :=
  (String.length suffix <=? String.length s)
  && String.eqb (substring (String.length s - String.length suffix)
                           (String.length suffix) s) suffix.

(** [s.endswith(tuple)] *)
Definition endswith_any (s : string) (suffixes : list string) : bool :=
  existsb (endswith s) suffixes.

(** [needle in s] *)
Fixpoint contains (needle s : string) : bool :=
  prefix needle s
  || match s with
     | EmptyString => false
     | String _ s' => contains needle s'
     end.

(** [s.replace(a, b)] for one-character [a] and [b]. *)
Fixpoint replace_char (a b : ascii) (s : string) : string :=
  match s with
  | EmptyString => EmptyString
  | String c s' => String (if Ascii.eqb c a then b else c) (replace_char a b s')
  end.

(** [re.split] on a character class: the pieces between the separators,
    empty pieces included. *)
Fixpoint re_split (sep : ascii -> bool) (s : string) : list string :=
  match s with
  | EmptyString => [EmptyString]
  | String c s' =>
      match re_split sep s' with
      | piece :: pieces =>
          if sep c then EmptyString :: piece :: pieces
          else String c piece :: pieces
      | [] => [if sep c then EmptyString else String c EmptyString]
      end
  end.

(** [c * n] for a one-character string. *)
Fixpoint repeat_char (c : ascii) (n : nat) : string :=
  match n with
  | O => EmptyString
  | S n' => String c (repeat_char c n')
  end.

(** [str(n)] for a non-negative integer. *)
Definition str_of_nat (n : nat) : string :=
  NilZero.string_of_uint (Nat.to_uint n).

(** Truthiness of a value that is [None] or a [str]. *)
Definition truthy (v : option string) : bool :=
  match v with
  | Some s => negb (String.eqb s "")
  | None => false
  end.

(** [sorted(l)] on strings.  The order on [str] is total and antisymmetric,
    so the sorted list does not depend on the sorting algorithm. *)
Fixpoint insert_sorted (x : string) (l : list string) : list string :=
  match l with
  | [] => [x]
  | y :: l' => if String.leb x y then x :: l else y :: insert_sorted x l'
  end.

Fixpoint sorted (l : list string) : list string :=
  match l with
  | [] => []
  | x :: l' => insert_sorted x (sorted l')
  end.

End Py.

(** ** Exceptions, outcomes and the trace of external calls *)

(** The exception classes the script meets; all derive from [Exception]. *)
Inductive exn : Type :=
| SpotifyException (http_status : Z) (headers : list (string * string))
| ZeroDivisionError
| IndexError
| ValueError
| OtherException (msg : string).

Inductive outcome (A : Type) : Type :=
| Ret (a : A)
| Exc (e : exn).

Arguments Ret {A} a.
Arguments Exc {A} e.

Inductive event : Type :=
| EvInvoke (name artist track : string)   (* fn(client, artist, track) *)
| EvSpotifySearch (q : string)            (* sp.search(q=..., type='track') *)
| EvSpotifyTrack (track_id : string)      (* sp.track(track_id) *)
| EvSpotifyArtist (artist_id : string)    (* sp.artist(artist_id) *)
| EvSleep (secs : Z)                      (* time.sleep(secs) *)
| EvMutagenFile (file_path : string)      (* mutagen.File(file_path, easy=True) *)
| EvSave (file_path genre : string)       (* audiofile.save() *)
| EvWriteFile (file_path content : string). (* open(path, 'w') and its writes *)

Record state (W : Type) : Type := mkState { world : W; trace : list event }.

Arguments mkState {W} world trace.
Arguments world {W} s.
Arguments trace {W} s.

Definition M (W A : Type) : Type := state W -> outcome A * state W.

Definition ret {W A} (a : A) : M W A := fun st => (Ret a, st).

Definition raise {W A} (e : exn) : M W A := fun st => (Exc e, st).

Definition bind {W A B} (c : M W A) (k : A -> M W B) : M W B :=
  fun st =>
    match c st with
    | (Ret a, st') => k a st'
    | (Exc e, st') => (Exc e, st')
    end.

Notation "x <- c ;; k" := (bind c (fun x => k))
  (at level 61, c at next level, right associativity).

(** An external call: run it on the world and record it in the trace. *)
Definition ext {W A} (ev : event) (f : W -> outcome A * W) : M W A :=
  fun st =>
    let (o, w') := f (world st) in
    (o, mkState w' (trace st ++ [ev])%list).

(** [l[0]] *)
Definition subscript0 {W A} (l : list A) : M W A :=
  match l with
  | [] => raise IndexError
  | x :: _ => ret x
  end.

(** [d.get(key)] on a dictionary kept as an association list. *)
Fixpoint dict_get {V} (d : list (string * V)) (key : string) : option V :=
  match d with
  | [] => None
  | (k, v) :: d' => if String.eqb k key then Some v else dict_get d' key
  end.

(** Number of adapter invocations, sleeps and catalog searches in a trace. *)
Definition invocations (tr : list event) : list string :=
  flat_map (fun ev => match ev with EvInvoke name _ _ => [name] | _ => [] end) tr.

Definition sleeps (tr : list event) : list Z :=
  flat_map (fun ev => match ev with EvSleep secs => [secs] | _ => [] end) tr.

Definition searches (tr : list event) : list string :=
  flat_map (fun ev => match ev with EvSpotifySearch q => [q] | _ => [] end) tr.

Definition written_files (tr : list event) : list string :=
  flat_map (fun ev => match ev with EvWriteFile p _ => [p] | _ => [] end) tr.

(** ** [os.path] on POSIX paths *)

Definition slash : ascii := "/"%char.

(** [os.path.join(a, b)] *)
Definition os_path_join (a b : string) : string :=
  if prefix "/" b then b
  else if String.eqb a "" || Py.endswith a "/" then (a ++ b)%string
  else (a ++ "/" ++ b)%string.

Fixpoint basename_from (segment p : string) : string :=
  match p with
  | EmptyString => segment
  | String c p' =>
      if Ascii.eqb c slash then basename_from "" p'
      else basename_from (segment ++ String c "")%string p'
  end.

(** [os.path.basename(p)]: what follows the last slash. *)
Definition os_path_basename (p : string) : string := basename_from "" p.

Fixpoint rstrip_slash (s : string) : string :=
  match s with
  | EmptyString => EmptyString
  | String c s' =>
      match rstrip_slash s' with
      | EmptyString => if Ascii.eqb c slash then EmptyString else String c EmptyString
      | r => String c r
      end
  end.

(** [os.path.dirname(p)]: up to the last slash, trailing slashes removed
    unless the head is made of slashes only. *)
Definition os_path_dirname (p : string) : string :=
  let head := substring 0 (String.length p - String.length (os_path_basename p)) p in
  match rstrip_slash head with
  | EmptyString => head
  | stripped => stripped
  end.

(** ** Data of the external collaborators *)

(** A tag file opened with [easy=True]: keys to lists of strings. *)
Record audiofile : Type := mkAudio { tags : list (string * list string) }.

(** [audiofile.get(key, [None])] *)
Definition audiofile_get (a : audiofile) (key : string) : list (option string) :=
  match dict_get (tags a) key with
  | Some values => map Some values
  | None => [None]
  end.

(** [audiofile[key] = value] *)
Definition audiofile_set (a : audiofile) (key value : string) : audiofile :=
  mkAudio ((key, [value]) :: filter (fun kv => negb (String.eqb (fst kv) key)) (tags a)).

Record http_response : Type := mkResponse { status_code : Z; text : string }.

(** A cell of the infobox once its [sup] elements are removed:
    [get_text(strip=True)] of each [li], and [get_text(separator=' | ')]. *)
Record wiki_td : Type := mkTd { td_lis : list string; td_text : string }.

(** A row of the infobox: [get_text(strip=True)] of its [th] if any, and
    its [td] if any. *)
Record wiki_tr : Type := mkTr { tr_th : option string; tr_td : option wiki_td }.

(** A release of the release database; a missing or [None] attribute is
    [None]. *)
Record discogs_release : Type :=
  mkRelease { release_genres : option (list string);
              release_styles : option (list string) }.

(** A directory tree as [os.scandir] lists it, entries in the order of the
    operating system.  [File] is an entry for which [os.path.isfile] holds
    (a regular file or a link to one).  [Special] is an entry that is no
    directory and for which [os.path.isfile] does not hold: a dangling
    symbolic link, a FIFO, a socket or a device; [os.walk] lists it among
    the files all the same.  A symbolic link to a directory, which [os.walk]
    lists among the directories and does not enter, is a [Dir] without
    entries. *)
#[warnings="-register-all"]
Inductive node : Type :=
| File (name : string)
| Dir (name : string) (entries : list node)
| Special (name : string).

Definition node_name (n : node) : string :=
  match n with
  | File name => name
  | Dir name _ => name
  | Special name => name
  end.

Record arguments : Type :=
  mkArgs { path : string; no_recurse : bool; report : option string }.

Definition SUPPORTED_EXTENSIONS : list string := [".mp3"; ".flac"].

(** ** The program *)

Section Model.

Variable W : Type.

(** Handles of the configured clients.  Each method is an external call. *)
Record spotify_client : Type := mkSpotify {
  (* ids of [results['tracks']['items']] *)
  sp_search : string -> W -> outcome (list string) * W;
  (* ids of [track_info['artists']] *)
  sp_track : string -> W -> outcome (list string) * W;
  (* [artist_info['genres']] *)
  sp_artist : string -> W -> outcome (list string) * W
}.

Record lastfm_network : Type := mkLastfm {
  (* names of [network.get_track(artist, track).get_top_tags(limit=5)] *)
  lastfm_top_tags : string -> string -> W -> outcome (list string) * W
}.

Record discogs_client : Type := mkDiscogs {
  (* [d_client.search(query, type='release').page(1)] *)
  discogs_page1 : string -> W -> outcome (list discogs_release) * W
}.

(** The library functions the script calls. *)
Record Host : Type := mkHost {
  (* [int(s)] on a string; [None] stands for [ValueError] *)
  py_int : string -> option Z;
  (* [time.sleep(secs)] first converts [secs] to the count of its clock,
     which raises [OverflowError] for a number too large, whatever its
     sign *)
  time_convert : Z -> outcome unit;
  (* the sleep proper, for a time that is not negative: the world once it
     has returned, or what it raises *)
  time_sleep : Z -> W -> outcome unit * W;
  wikipedia_search : string -> W -> outcome (list string) * W;
  requests_get : string -> W -> outcome http_response * W;
  (* [BeautifulSoup(html, 'html.parser').find('table', {'class': 'infobox'})],
     as the list of its [tr] rows *)
  soup_infobox : string -> outcome (option (list wiki_tr));
  mutagen_File : string -> W -> outcome (option audiofile) * W;
  audiofile_save : string -> audiofile -> W -> outcome unit * W;
  os_path_expanduser : string -> string;
  (* the file system under a path: [None] when nothing is there *)
  os_stat : string -> option node;
  (* [open(path, 'w', encoding='utf-8')] with everything written to it *)
  write_text : string -> string -> W -> outcome unit * W
}.

Variable host : Host.

(** *** Genre providers *)

(** [', '.join(g.title() for g in genres)] *)
Definition join_titles (genres : list string) : string :=
  Py.join ", " (map Py.title genres).

(** The [try] block of [get_genre_spotify]; falling out of it reaches the
    final [return None]. *)
Definition spotify_try (sp : spotify_client) (artist track : string)
  : M W (option string) :=
  let q := ("artist:" ++ artist ++ " track:" ++ track)%string in
  items <- ext (EvSpotifySearch q) (sp_search sp q) ;;
  match items with
  | [] => ret None
  | track_id :: _ =>
      artists <- ext (EvSpotifyTrack track_id) (sp_track sp track_id) ;;
      artist_id <- subscript0 artists ;;
      genres <- ext (EvSpotifyArtist artist_id) (sp_artist sp artist_id) ;;
      match genres with
      | [] => ret None
      | _ :: _ => ret (Some (join_titles genres))
      end
  end.

(** [int(e.headers.get('Retry-After', 1))] *)
Definition retry_after_of (headers : list (string * string)) : outcome Z :=
  match dict_get headers "Retry-After" with
  | None => Ret 1%Z
  | Some v =>
      match py_int host v with
      | Some n => Ret n
      | None => Exc ValueError
      end
  end.

(** [time.sleep(secs)]: the conversion of the time, then [ValueError] for
    a negative time, then the sleep; the trace records the sleeps that took
    place. *)
Definition sleep (secs : Z) : M W unit :=
  fun st =>
    match time_convert host secs with
    | Exc e => (Exc e, st)
    | Ret _ =>
        if (secs <? 0)%Z then (Exc ValueError, st)
        else
          match time_sleep host secs (world st) with
          | (Ret _, w') =>
              (Ret tt, mkState w' (trace st ++ [EvSleep secs])%list)
          | (Exc e, w') => (Exc e, mkState w' (trace st))
          end
    end.

(** [get_genre_spotify].  The function calls itself from its handler of the
    rate-limit signal.  [fuel] is the number of nested calls of the function
    that still fit under the recursion limit of the interpreter, and [None]
    means that this limit was reached: CPython then raises [RecursionError]
    in the innermost call, at a place that depends on the depth of the
    library calls, and the embedding does not follow the run any further.
    Nothing is stated here about a run that reaches the limit. *)
Fixpoint get_genre_spotify (fuel : nat) (sp : spotify_client)
    (artist track : string) (st : state W)
  : option (outcome (option string) * state W) :=
  match fuel with
  | O => None
  | S fuel' =>
      match spotify_try sp artist track st with
      | (Ret result, st1) => Some (Ret result, st1)
      | (Exc (SpotifyException http_status headers), st1) =>
          if (http_status =? 429)%Z then
            match retry_after_of headers with
            | Exc e => Some (Exc e, st1)
            | Ret retry_after =>
                match sleep retry_after st1 with
                | (Exc e, st2) => Some (Exc e, st2)
                | (Ret _, st2) => get_genre_spotify fuel' sp artist track st2
                end
            end
          else Some (Ret None, st1)
      | (Exc _, st1) => Some (Ret None, st1)
      end
  end.

Definition lastfm_skip : list string :=
  ["seen live"; "favorites"; "favourite"; "love"; "loved"; "awesome";
   "great"; "good"; "best"; "cool"; "amazing"; "beautiful"; "classic"].

(** [get_genre_lastfm]; [pylast] is importable whenever this provider is in
    the chain. *)
Definition get_genre_lastfm (network : lastfm_network) (artist track : string)
    (w : W) : outcome (option string) * W :=
  match lastfm_top_tags network artist track w with
  | (Ret top_tags, w1) =>
      let genres :=
        filter (fun name => negb (existsb (String.eqb (Py.lower name)) lastfm_skip))
               top_tags in
      match genres with
      | [] => (Ret None, w1)
      | _ :: _ => (Ret (Some (join_titles genres)), w1)
      end
  | (Exc _, w1) => (Ret None, w1)
  end.

(** [x or []] *)
Definition or_empty (x : option (list string)) : list string :=
  match x with
  | Some l => l
  | None => []
  end.

(** [get_genre_discogs] *)
Definition get_genre_discogs (d_client : discogs_client) (artist track : string)
    (w : W) : outcome (option string) * W :=
  match discogs_page1 d_client (artist ++ " " ++ track)%string w with
  | (Ret page, w1) =>
      match page with
      | [] => (Ret None, w1)
      | release :: _ =>
          let genres := or_empty (release_genres release) in
          let styles := or_empty (release_styles release) in
          let combined := (genres ++ styles)%list in
          match combined with
          | [] => (Ret None, w1)
          | _ :: _ => (Ret (Some (join_titles combined)), w1)
          end
      end
  | (Exc _, w1) => (Ret None, w1)
  end.

(** The separators of [re.split(r'[\|,]', text)]. *)
Definition bar_or_comma (c : ascii) : bool :=
  Ascii.eqb c "|"%char || Ascii.eqb c ","%char.

(** The loop of [_fetch_wiki_genre] over the rows of the infobox. *)
Fixpoint wiki_rows_genre (rows : list wiki_tr) : option string :=
  match rows with
  | [] => None
  | tr :: rows' =>
      match tr_th tr with
      | Some th =>
          if Py.contains "genre" (Py.lower th) then
            match tr_td tr with
            | None => None
            | Some td =>
                let items :=
                  match td_lis td with
                  | [] => Py.re_split bar_or_comma (td_text td)
                  | lis => lis
                  end in
                let genres :=
                  map (fun i => Py.title (Py.strip i))
                      (filter (fun i => negb (String.eqb (Py.strip i) "")) items) in
                Some (Py.join ", " genres)
            end
          else wiki_rows_genre rows'
      | None => wiki_rows_genre rows'
      end
  end.

Definition _fetch_wiki_genre (query : string) (w : W)
  : outcome (option string) * W :=
  match wikipedia_search host query w with
  | (Ret search, w1) =>
      match search with
      | [] => (Ret None, w1)
      | title :: _ =>
          let url := ("https://en.wikipedia.org/wiki/"
                      ++ Py.replace_char " "%char "_"%char title)%string in
          match requests_get host url w1 with
          | (Ret res, w2) =>
              if negb (status_code res =? 200)%Z then (Ret None, w2)
              else
                match soup_infobox host (text res) with
                | Ret (Some infobox) => (Ret (wiki_rows_genre infobox), w2)
                | Ret None => (Ret None, w2)
                | Exc _ => (Ret None, w2)
                end
          | (Exc _, w2) => (Ret None, w2)
          end
      end
  | (Exc _, w1) => (Ret None, w1)
  end.

Definition get_genre_wikipedia_track {Client : Type} (client : Client)
    (artist track : string) (w : W) : outcome (option string) * W :=
  _fetch_wiki_genre (track ++ " " ++ artist ++ " song")%string w.

Definition get_genre_wikipedia_artist {Client : Type} (client : Client)
    (artist track : string) (w : W) : outcome (option string) * W :=
  _fetch_wiki_genre (artist ++ " musician")%string w.

(** *** The fallback resolver *)

Variable Client : Type.

(** An entry [(name, fn, client)] of the provider list. *)
Record provider : Type := mkProvider {
  name : string;
  fn : Client -> string -> string -> W -> outcome (option string) * W;
  client : Client
}.

(** [fn(client, artist, track)], recorded in the trace. *)
Definition invoke (p : provider) (artist track : string) : M W (option string) :=
  ext (EvInvoke (name p) artist track) (fn p (client p) artist track).

Fixpoint get_genre (providers : list provider) (artist track : string)
    (st : state W) : outcome (option string) * state W :=
  match providers with
  | [] => (Ret None, st)
  | p :: providers' =>
      match invoke p artist track st with
      | (Ret result, st1) =>
          if Py.truthy result then (Ret result, st1)
          else get_genre providers' artist track st1
      | (Exc _, st1) => get_genre providers' artist track st1
      end
  end.

(** *** File helpers *)

Definition is_flac (file_path : string) : bool :=
  Py.endswith (Py.lower file_path) ".flac".

Definition no_metadata
  : option string * option string * option string * option string :=
  (None, None, None, None).

(** The reads of [extract_metadata] on an opened file. *)
Definition read_fields (file_path : string) (a : audiofile)
  : M W (option string * option string * option string * option string) :=
  artist <- subscript0 (audiofile_get a "artist") ;;
  title <- subscript0 (audiofile_get a "title") ;;
  if is_flac file_path then
    comments <- subscript0 (audiofile_get a "comment") ;;
    genre <- subscript0 (audiofile_get a "genre") ;;
    ret (artist, title, comments, genre)
  else
    comments <- subscript0 (audiofile_get a "COMM::eng") ;;
    genre <- subscript0 (audiofile_get a "TCON") ;;
    ret (artist, title, comments, genre).

Definition extract_metadata (file_path : string) (st : state W)
  : outcome (option string * option string * option string * option string)
    * state W :=
  match (a <- ext (EvMutagenFile file_path) (mutagen_File host file_path) ;;
         match a with
         | Some a' =>
             fields <- read_fields file_path a' ;;
             let '(artist, title, comments, genre) := fields in
             if Py.truthy artist && Py.truthy title
             then ret (artist, title, comments, genre)
             else ret no_metadata
         | None => ret no_metadata
         end) st with
  | (Ret r, st1) => (Ret r, st1)
  | (Exc _, st1) => (Ret no_metadata, st1)
  end.

Definition update_genre (file_path genre : string) (st : state W)
  : outcome unit * state W :=
  match (a <- ext (EvMutagenFile file_path) (mutagen_File host file_path) ;;
         match a with
         | Some a' =>
             ext (EvSave file_path genre)
                 (audiofile_save host file_path (audiofile_set a' "genre" genre))
         | None => ret tt
         end) st with
  | (Ret _, st1) => (Ret tt, st1)
  | (Exc _, st1) => (Ret tt, st1)
  end.

(** *** Main processing *)

(** [process_file]; [artist and title] holds exactly when both are
    non-empty strings. *)
Definition process_file (providers : list provider) (file_path : string)
  : M W (string * option string) :=
  let filename := os_path_basename file_path in
  fields <- extract_metadata file_path ;;
  let '(artist, title, comments, genre) := fields in
  match artist, title with
  | Some artist', Some title' =>
      if Py.truthy artist && Py.truthy title then
        if Py.truthy genre then ret (filename, genre)
        else
          new_genre <- get_genre providers artist' title' ;;
          match new_genre with
          | Some new_genre' =>
              if Py.truthy new_genre then
                _ <- update_genre file_path new_genre' ;;
                ret (filename, new_genre)
              else ret (filename, None)
          | None => ret (filename, None)
          end
      else ret (filename, None)
  | _, _ => ret (filename, None)
  end.

(** [filename.lower().endswith(SUPPORTED_EXTENSIONS)] *)
Definition supported (filename : string) : bool :=
  Py.endswith_any (Py.lower filename) SUPPORTED_EXTENSIONS.

Definition os_listdir (entries : list node) : list string :=
  map node_name entries.

(** [os.path.isfile] of a name inside the listed directory. *)
Definition isfile_in (entries : list node) (filename : string) : bool :=
  existsb (fun e => match e with
                    | File n => String.eqb n filename
                    | Dir _ _ => false
                    | Special _ => false
                    end) entries.

(** The [dirs] and the [files] of a triple of [os.walk]: the directories,
    and every other entry, regular file or not. *)
Definition walk_dirs (entries : list node) : list string :=
  flat_map (fun e => match e with
                     | Dir d _ => [d]
                     | File _ => []
                     | Special _ => []
                     end) entries.

Definition walk_files (entries : list node) : list string :=
  flat_map (fun e => match e with
                     | File f => [f]
                     | Special f => [f]
                     | Dir _ _ => []
                     end) entries.

(** [os.walk(top)], top-down: the triple of a directory, then the walk of
    each of its subdirectories in turn. *)
Fixpoint os_walk (top : string) (n : node)
  : list (string * list string * list string) :=
  match n with
  | File _ => []
  | Special _ => []
  | Dir _ entries =>
      (top, walk_dirs entries, walk_files entries)
      :: flat_map (fun e => os_walk (os_path_join top (node_name e)) e) entries
  end.

(** The file paths the loops of [main] hand to [process_file], in order. *)
Definition found_flat (expanded_path : string) (entries : list node)
  : list string :=
  map (os_path_join expanded_path)
      (filter (fun filename => isfile_in entries filename && supported filename)
              (Py.sorted (os_listdir entries))).

Definition found_walk (expanded_path : string) (n : node) : list string :=
  flat_map (fun triple =>
              let '(root, _, files) := triple in
              map (os_path_join root) (filter supported (Py.sorted files)))
           (os_walk expanded_path n).

Fixpoint process_files (providers : list provider) (file_paths : list string)
  : M W (list (string * option string)) :=
  match file_paths with
  | [] => ret []
  | file_path :: rest =>
      r <- process_file providers file_path ;;
      rs <- process_files providers rest ;;
      ret (r :: rs)
  end.

(** [a // b] *)
Definition floordiv (a b : nat) : outcome nat :=
  if b =? 0 then Exc ZeroDivisionError else Ret (a / b).

Definition rule (c : ascii) : string :=
  (Py.repeat_char c 60 ++ String "010"%char "")%string.

Definition nl : string := String "010"%char "".

Definition has_genre (r : string * option string) : bool := Py.truthy (snd r).

Definition genre_text (g : option string) : string :=
  match g with
  | Some s => s
  | None => "None"
  end.

(** The lines written to the report file, from the counts and percentages. *)
Definition render_report (total n_with n_without pct_with pct_without : nat)
    (with_genre without_genre : list (string * option string)) : string :=
  ("Genre Report" ++ nl
   ++ rule "="%char
   ++ "Total files processed : " ++ Py.str_of_nat total ++ nl
   ++ "With genre tag        : " ++ Py.str_of_nat n_with
   ++ " (" ++ Py.str_of_nat pct_with ++ "%)" ++ nl
   ++ "Without genre tag     : " ++ Py.str_of_nat n_without
   ++ " (" ++ Py.str_of_nat pct_without ++ "%)" ++ nl
   ++ rule "="%char ++ nl
   ++ "✔ WITH GENRE (" ++ Py.str_of_nat n_with ++ " files)" ++ nl
   ++ rule "-"%char
   ++ String.concat ""
        (map (fun r => "  " ++ fst r ++ nl
                       ++ "    → " ++ genre_text (snd r) ++ nl)
             with_genre)
   ++ nl ++ "✘ WITHOUT GENRE (" ++ Py.str_of_nat n_without ++ " files)" ++ nl
   ++ rule "-"%char
   ++ String.concat "" (map (fun r => "  " ++ fst r ++ nl) without_genre))%string.

(** Everything written to the report file; the percentages are computed
    with [//] on [total]. *)
Definition report_text (results : list (string * option string))
  : outcome string :=
  let with_genre := filter has_genre results in
  let without_genre := filter (fun r => negb (has_genre r)) results in
  let total := List.length results in
  match floordiv (List.length with_genre * 100) total with
  | Exc e => Exc e
  | Ret pct_with =>
      match floordiv (List.length without_genre * 100) total with
      | Exc e => Exc e
      | Ret pct_without =>
          Ret (render_report total (List.length with_genre)
                 (List.length without_genre) pct_with pct_without
                 with_genre without_genre)
      end
  end.

Definition is_dir (n : option node) : bool :=
  match n with
  | Some (Dir _ _) => true
  | _ => false
  end.

(** The report step of [main]. *)
Definition write_report (args : arguments) (expanded_path : string)
    (results : list (string * option string)) : M W unit :=
  match results with
  | [] => ret tt
  | _ :: _ =>
      let beside :=
        if is_dir (os_stat host expanded_path) then
          os_path_join expanded_path "genre_report.txt"
        else os_path_join (os_path_dirname expanded_path) "genre_report.txt" in
      let report_path :=
        match report args with
        | Some r => if Py.truthy (report args) then os_path_expanduser host r
                    else beside
        | None => beside
        end in
      match report_text results with
      | Exc e => raise e
      | Ret content =>
          ext (EvWriteFile report_path content)
              (write_text host report_path content)
      end
  end.

(** [main], from the provider chain it has built. *)
Definition main (providers : list provider) (args : arguments) : M W unit :=
  match providers with
  | [] => ret tt
  | _ :: _ =>
      let expanded_path := os_path_expanduser host (path args) in
      match os_stat host expanded_path with
      | Some (Dir d entries) =>
          results <- process_files providers
                       (if no_recurse args
                        then found_flat expanded_path entries
                        else found_walk expanded_path (Dir d entries)) ;;
          write_report args expanded_path results
      | Some (File _) =>
          if Py.endswith_any (Py.lower expanded_path) SUPPORTED_EXTENSIONS then
            results <- process_files providers [expanded_path] ;;
            write_report args expanded_path results
          else ret tt
      | Some (Special _) => ret tt
      | None => ret tt
      end
  end.

End Model.

Arguments mkSpotify {W} _ _ _.
Arguments mkLastfm {W} _.
Arguments mkDiscogs {W} _.
Arguments mkHost {W} _ _ _ _ _ _ _ _ _ _ _.
Arguments mkProvider {W Client} _ _ _.
Arguments sp_search {W} s _ _.
Arguments sp_track {W} s _ _.
Arguments sp_artist {W} s _ _.
Arguments lastfm_top_tags {W} l _ _ _.
Arguments discogs_page1 {W} d _ _.
Arguments py_int {W} h _.
Arguments time_convert {W} h _.
Arguments time_sleep {W} h _ _.
Arguments wikipedia_search {W} h _ _.
Arguments requests_get {W} h _ _.
Arguments soup_infobox {W} h _.
Arguments mutagen_File {W} h _ _.
Arguments audiofile_save {W} h _ _ _.
Arguments os_path_expanduser {W} h _.
Arguments os_stat {W} h _.
Arguments write_text {W} h _ _ _.
Arguments name {W Client} p.
Arguments fn {W Client} p.
Arguments client {W Client} p.
Arguments spotify_try {W} sp artist track st.
Arguments retry_after_of {W} host headers.
Arguments sleep {W} host secs st.
Arguments get_genre_spotify {W} host fuel sp artist track st.
Arguments get_genre_lastfm {W} network artist track w.
Arguments get_genre_discogs {W} d_client artist track w.
Arguments _fetch_wiki_genre {W} host query w.
Arguments get_genre_wikipedia_track {W} host {Client} client artist track w.
Arguments get_genre_wikipedia_artist {W} host {Client} client artist track w.
Arguments invoke {W Client} p artist track st.
Arguments get_genre {W Client} providers artist track st.
Arguments read_fields {W} file_path a st.
Arguments extract_metadata {W} host file_path st.
Arguments update_genre {W} host file_path genre st.
Arguments process_file {W} host {Client} providers file_path st.
Arguments process_files {W} host {Client} providers file_paths st.
Arguments write_report {W} host args expanded_path results st.
Arguments main {W} host {Client} providers args st.

(** ** Vocabulary of the statements *)

(** An adapter outcome the resolver passes over: an exception, [None] or
    the empty string. *)
Definition passed_over (o : outcome (option string)) : bool :=
  match o with
  | Ret result => negb (Py.truthy result)
  | Exc _ => true
  end.

(** An adapter outcome without a result: an exception or [None]. *)
Definition no_result (o : outcome (option string)) : bool :=
  match o with
  | Ret (Some _) => false
  | Ret None => true
  | Exc _ => true
  end.

(** Invoke the providers one after the other as long as their outcomes
    satisfy [ok]; the state after the last one, if all of them did. *)
Fixpoint invoke_all {W Client} (ok : outcome (option string) -> bool)
    (providers : list (provider W Client)) (artist track : string)
    (st : state W) : option (state W) :=
  match providers with
  | [] => Some st
  | p :: providers' =>
      let (o, st1) := invoke p artist track st in
      if ok o then invoke_all ok providers' artist track st1 else None
  end.

(** The source answers the lookup with the rate-limit signal [n] times in a
    row, each followed by the sleep it asks for; the state after the last
    sleep. *)
Fixpoint rate_limited {W} (host : Host W) (n : nat) (sp : spotify_client W)
    (artist track : string) (st : state W) : option (state W) :=
  match n with
  | O => Some st
  | S n' =>
      match spotify_try sp artist track st with
      | (Exc (SpotifyException http_status headers), st1) =>
          if (http_status =? 429)%Z then
            match retry_after_of host headers with
            | Ret secs =>
                match sleep host secs st1 with
                | (Ret _, st2) => rate_limited host n' sp artist track st2
                | (Exc _, _) => None
                end
            | Exc _ => None
            end
          else None
      | _ => None
      end
  end.


(** The names of the regular files of a directory: the entries for which
    [os.path.isfile] holds. *)
Definition regular_files (entries : list node) : list string :=
  flat_map (fun e => match e with
                     | File f => [f]
                     | Dir _ _ => []
                     | Special _ => []
                     end) entries.

(** The texts of the cell of an infobox row are ASCII. *)
Definition row_isascii (tr : wiki_tr) : bool :=
  match tr_td tr with
  | Some td => forallb Py.isascii (td_lis td) && Py.isascii (td_text td)
  | None => true
  end.

(** [int(s)] on a string of decimal digits. *)
Definition int_of_str (s : string) : option nat :=
  option_map Nat.of_uint (NilZero.uint_of_string s).

(** Every entry that is no directory is a regular file. *)
Definition all_regular (entries : list node) : bool :=
  forallb (fun e => match e with
                    | File _ => true
                    | Dir _ _ => true
                    | Special _ => false
                    end) entries.

(** The names of the subdirectories of a directory with what they hold, in
    the order in which the directory lists them. *)
Definition subdirectories (entries : list node) : list (string * list node) :=
  flat_map (fun e => match e with
                     | Dir d sub => [(d, sub)]
                     | File _ => []
                     | Special _ => []
                     end) entries.

(** The supported entries found below a directory by a walk, with their
    paths: the entries that are no directories, in the directory itself or
    in a directory below it. *)
Inductive found_under : string -> list node -> string -> Prop :=
| found_here root entries f :
    In f (walk_files entries) -> supported f = true ->
    found_under root entries (os_path_join root f)
| found_below root entries d sub p :
    In (Dir d sub) entries ->
    found_under (os_path_join root d) sub p ->
    found_under root entries p.

Definition sorted_names (l : list string) : Prop :=
  Sorted (fun a b => String.leb a b = true) l.

(** Whether the last character of [s] is cased ([b] for the empty string). *)
Fixpoint ends_cased (b : bool) (s : string) : bool :=
  match s with
  | EmptyString => b
  | String c s' => ends_cased (Py.is_lower c || Py.is_upper c) s'
  end.

(** What the adapters document to return: [None], or the title-cased terms
    of a non-empty list joined with a comma and a blank. *)
Definition genre_list_string (result : option string) : Prop :=
  result = None
  \/ exists genres, genres <> [] /\ result = Some (join_titles genres).

(** ** A scripted world, for concrete runs *)

Module Mock.

(** The answers the catalog search still has to give, and the time slept. *)
Record world : Type := mkWorld {
  pending : list (outcome (list string));
  slept : Z
}.

Definition rate_limit (retry_after : string) : outcome (list string) :=
  Exc (SpotifyException 429 [("Retry-After", retry_after)]).

Definition scripted_search (q : string) (w : world)
  : outcome (list string) * world :=
  match pending w with
  | [] => (Ret [], w)
  | answer :: rest => (answer, mkWorld rest (slept w))
  end.

(** A catalog that follows the script of the world. *)
Definition sp : spotify_client world :=
  mkSpotify scripted_search
            (fun _ w => (Ret ["artist-1"], w))
            (fun _ w => (Ret ["rock"; "indie pop"], w)).

(** A catalog that signals the rate limit on every search. *)
Definition sp_busy : spotify_client world :=
  mkSpotify (fun _ w => (rate_limit "1", w))
            (fun _ w => (Ret ["artist-1"], w))
            (fun _ w => (Ret ["rock"], w)).

Definition decimal (s : string) : option Z :=
  option_map Z.of_uint (NilZero.uint_of_string s).

Definition tagged (artist title genre : list string) : audiofile :=
  mkAudio [("artist", artist); ("title", title); ("genre", genre)].

Definition library (file_path : string) : option audiofile :=
  if String.eqb file_path "/music/a.flac"
  then Some (tagged ["Queen"] ["Bohemian Rhapsody"] ["Rock"])
  else if String.eqb file_path "/music/b.flac"
  then Some (tagged ["Queen"] ["Innuendo"] [])
  else if String.eqb file_path "/music/c.flac"
  then Some (mkAudio [("artist", ["Queen"]); ("title", ["Bijou"])])
  else if String.eqb file_path "/music/d.flac"
  then Some (mkAudio [("title", ["Untitled"])])
  else None.

(** An infobox whose genre cell holds a blank only. *)
Definition blank_genre_infobox : list wiki_tr :=
  [mkTr (Some "Released") (Some (mkTd [] "1991"));
   mkTr (Some "Genre") (Some (mkTd [] " "))].

Definition music : node :=
  Dir "music"
      [File "b.flac"; Dir "live" [File "z.mp3"; File "cover.jpg"];
       File "notes.txt"; File "a.FLAC";
       Dir "demos" [Dir "old" [File "k.mp3"]; File "c.mp3"]].

Definition scans : node := Dir "scans" [File "front.png"; File "track.wav"].

(** A directory with a dangling link [lost.mp3] among its entries. *)
Definition shelf : list node :=
  [File "b.flac"; Special "lost.mp3";
   Dir "live" [File "z.mp3"; File "y.mp3"];
   File "notes.txt"; File "a.FLAC"; Dir "demos" [File "c.mp3"]].

(** The tag library cannot save: every write-back fails. *)
Definition host : Host world :=
  mkHost decimal
         (fun _ => Ret tt)
         (fun secs w => (Ret tt, mkWorld (pending w) (slept w + secs)))
         (fun _ w => (Ret ["Innuendo (song)"], w))
         (fun _ w => (Ret (mkResponse 200 "<html>"), w))
         (fun _ => Ret (Some blank_genre_infobox))
         (fun file_path w => (Ret (library file_path), w))
         (fun _ _ w => (Exc (OtherException "read-only file"), w))
         (fun p => p)
         (fun p => if String.eqb p "/music" then Some music
                   else if String.eqb p "/scans" then Some scans
                   else None)
         (fun _ _ w => (Ret tt, w)).

(** The same host with a clock that, like the one of CPython, refuses a
    number of seconds that does not fit its 64-bit count of nanoseconds,
    and with an [int] that reads a sign. *)
Definition host_bounded_clock : Host world :=
  mkHost (fun s => match s with
                   | String "-" digits => option_map Z.opp (decimal digits)
                   | _ => decimal s
                   end)
         (fun secs => if (9223372036 <? Z.abs secs)%Z
                      then Exc (OtherException "OverflowError")
                      else Ret tt)
         (time_sleep host)
         (wikipedia_search host) (requests_get host) (soup_infobox host)
         (mutagen_File host) (audiofile_save host) (os_path_expanduser host)
         (os_stat host) (write_text host).

Definition start (answers : list (outcome (list string))) : state world :=
  mkState (mkWorld answers 0) [].

Definition constant (n : string) (o : outcome (option string))
  : provider world unit :=
  mkProvider n (fun _ _ _ w => (o, w)) tt.

Definition A_empty : provider world unit := constant "A" (Ret (Some "")).
Definition B_rock : provider world unit := constant "B" (Ret (Some "Rock")).
Definition C_pop : provider world unit := constant "C" (Ret (Some "Pop")).
Definition D_none : provider world unit := constant "D" (Ret None).
Definition E_fails : provider world unit :=
  constant "E" (Exc (OtherException "connection reset")).

Definition seven_results : list (string * option string) :=
  [("1.mp3", Some "Rock"); ("2.mp3", None); ("3.mp3", Some "Pop, Soul");
   ("4.mp3", None); ("5.mp3", Some ""); ("6.mp3", Some "Jazz"); ("7.mp3", None)].

End Mock.

(** ** Further vocabulary *)

(** The tag writes and the tag-file openings in a trace. *)
Definition saves (tr : list event) : list (string * string) :=
  flat_map (fun ev => match ev with EvSave p g => [(p, g)] | _ => [] end) tr.

Definition opened (tr : list event) : list string :=
  flat_map (fun ev => match ev with EvMutagenFile p => [p] | _ => [] end) tr.

(** No character of [s] is a slash. *)
Fixpoint no_slash (s : string) : bool :=
  match s with
  | EmptyString => true
  | String c s' => negb (Ascii.eqb c slash) && no_slash s'
  end.

(** The stoplist test of [get_genre_lastfm]. *)
Definition lastfm_skipped (tag_name : string) : bool :=
  existsb (String.eqb (Py.lower tag_name)) lastfm_skip.

(** Whether a row of the infobox is a genre row. *)
Definition genre_row (tr : wiki_tr) : bool :=
  match tr_th tr with
  | Some th => Py.contains "genre" (Py.lower th)
  | None => false
  end.


(** The four keys [extract_metadata] reads from a file. *)
Definition tags_read (file_path : string) : list string :=
  if is_flac file_path then ["artist"; "title"; "comment"; "genre"]
  else ["artist"; "title"; "COMM::eng"; "TCON"].


(** ** The provider chain of [main] *)

(** The four options that disable a family of providers. *)
Record provider_flags : Type :=
  mkFlags { no_spotify : bool; no_lastfm : bool; no_discogs : bool;
            no_wikipedia : bool }.

(** The third component of an entry of the chain: a configured client, or
    [None] for the encyclopedia entries. *)
Inductive handle (W : Type) : Type :=
| SpotifyHandle (sp : spotify_client W)
| LastfmHandle (network : lastfm_network W)
| DiscogsHandle (d_client : discogs_client W)
| NoHandle.

Arguments SpotifyHandle {W} sp.
Arguments LastfmHandle {W} network.
Arguments DiscogsHandle {W} d_client.
Arguments NoHandle {W}.

(** What the start of a run finds in [secrets.py] and among the optional
    packages. *)
Record installation (W : Type) : Type := mkInstallation {
  (* [spotipy.Spotify(client_credentials_manager=SpotifyClientCredentials(...))];
     [Exc] when building it raises *)
  new_spotify : outcome (spotify_client W);
  (* [import pylast] and its [LastFMNetwork(api_key, api_secret)];
     [None] stands for [ImportError] *)
  pylast : option (string -> string -> lastfm_network W);
  (* [getattr(secrets, 'LASTFM_API_KEY', '')] and the like *)
  LASTFM_API_KEY : string;
  LASTFM_API_SECRET : string;
  (* [import discogs_client] and its [Client('mutagen-tagger/1.0', user_token)] *)
  discogs_package : option (string -> discogs_client W);
  DISCOGS_USER_TOKEN : string;
  (* [import wikipedia], [from bs4 import BeautifulSoup], [import requests] *)
  wikipedia_packages : bool
}.

Arguments mkInstallation {W} _ _ _ _ _ _ _.
Arguments new_spotify {W} i.
Arguments pylast {W} i.
Arguments LASTFM_API_KEY {W} i.
Arguments LASTFM_API_SECRET {W} i.
Arguments discogs_package {W} i.
Arguments DISCOGS_USER_TOKEN {W} i.
Arguments wikipedia_packages {W} i.

Section Chain.

Variable W : Type.
Variable host : Host W.

(** [get_genre_spotify] as the chain calls it; its nested calls are bounded
    in the embedding, so the callable is taken as given. *)
Variable spotify_adapter :
  spotify_client W -> string -> string -> W -> outcome (option string) * W.

(** The adapters on the handles of the chain.  On a handle of another kind
    the first method call fails inside the adapter's [try], which gives
    [None]. *)
Definition spotify_entry (h : handle W) (artist track : string) (w : W)
  : outcome (option string) * W :=
  match h with
  | SpotifyHandle sp => spotify_adapter sp artist track w
  | _ => (Ret None, w)
  end.

Definition lastfm_entry (h : handle W) (artist track : string) (w : W)
  : outcome (option string) * W :=
  match h with
  | LastfmHandle network => get_genre_lastfm network artist track w
  | _ => (Ret None, w)
  end.

Definition discogs_entry (h : handle W) (artist track : string) (w : W)
  : outcome (option string) * W :=
  match h with
  | DiscogsHandle d_client => get_genre_discogs d_client artist track w
  | _ => (Ret None, w)
  end.

(** The chain [main] builds before it looks at the path. *)
Definition build_providers (flags : provider_flags) (inst : installation W)
  : list (provider W (handle W)) :=
  let providers := [] in
  let providers :=
    if negb (no_spotify flags) then
      match new_spotify inst with
      | Ret sp =>
          (providers
           ++ [mkProvider "Spotify" spotify_entry (SpotifyHandle sp)])%list
      | Exc _ => providers
      end
    else providers in
  let providers :=
    if negb (no_lastfm flags) then
      match pylast inst with
      | Some LastFMNetwork =>
          let api_key := LASTFM_API_KEY inst in
          let api_secret := LASTFM_API_SECRET inst in
          if negb (String.eqb api_key "") && negb (String.eqb api_secret "")
          then (providers
                ++ [mkProvider "Last.fm" lastfm_entry
                               (LastfmHandle (LastFMNetwork api_key api_secret))])%list
          else providers
      | None => providers
      end
    else providers in
  let providers :=
    if negb (no_discogs flags) then
      match discogs_package inst with
      | Some new_client =>
          let token := DISCOGS_USER_TOKEN inst in
          if negb (String.eqb token "")
          then (providers
                ++ [mkProvider "Discogs" discogs_entry
                               (DiscogsHandle (new_client token))])%list
          else providers
      | None => providers
      end
    else providers in
  let providers :=
    if negb (no_wikipedia flags) then
      if wikipedia_packages inst then
        (providers
         ++ [mkProvider "Wikipedia (Track)"
                        (get_genre_wikipedia_track host) NoHandle;
             mkProvider "Wikipedia (Artist)"
                        (get_genre_wikipedia_artist host) NoHandle])%list
      else providers
    else providers in
  providers.

(** [main] from the parsed options. *)
Definition main_from_options (flags : provider_flags) (inst : installation W)
    (args : arguments) : M W unit :=
  main host (build_providers flags inst) args.

End Chain.

Arguments spotify_entry {W} spotify_adapter h artist track w.
Arguments lastfm_entry {W} h artist track w.
Arguments discogs_entry {W} h artist track w.
Arguments build_providers {W} host spotify_adapter flags inst.
Arguments main_from_options {W} host spotify_adapter flags inst args st.

(** Whether the chain holds the entries of each family. *)
Definition spotify_on {W} (flags : provider_flags) (inst : installation W) : bool :=
  negb (no_spotify flags)
  && match new_spotify inst with Ret _ => true | Exc _ => false end.

Definition lastfm_on {W} (flags : provider_flags) (inst : installation W) : bool :=
  negb (no_lastfm flags)
  && match pylast inst with Some _ => true | None => false end
  && negb (String.eqb (LASTFM_API_KEY inst) "")
  && negb (String.eqb (LASTFM_API_SECRET inst) "").

Definition discogs_on {W} (flags : provider_flags) (inst : installation W) : bool :=
  negb (no_discogs flags)
  && match discogs_package inst with Some _ => true | None => false end
  && negb (String.eqb (DISCOGS_USER_TOKEN inst) "").

Definition wikipedia_on {W} (flags : provider_flags) (inst : installation W) : bool :=
  negb (no_wikipedia flags) && wikipedia_packages inst.

(** ** The desktop front end: reading the output of the script *)

Module PyStr.

(** [s.split(sep)] for a non-empty [sep]: the pieces between the
    occurrences of [sep], found from left to right without overlap.  [skip]
    counts the characters of a found occurrence still to pass. *)
Fixpoint split_from (sep : string) (skip : nat) (piece s : string)
  : list string :=
  match s with
  | EmptyString => [piece]
  | String c s' =>
      match skip with
      | S skip' => split_from sep skip' piece s'
      | O =>
          if prefix sep s
          then piece :: split_from sep (String.length sep - 1) EmptyString s'
          else split_from sep 0 (piece ++ String c EmptyString)%string s'
      end
  end.

Definition split (s sep : string) : list string :=
  split_from sep 0 EmptyString s.

End PyStr.

Module GUI.

(** What the reading thread schedules on the interface with [self.after]. *)
Inductive ui_call : Type :=
| ConfigureProgress (text text_color : string)   (* lbl_progress.configure *)
| AppendSummary (text : string)                  (* append_summary *)
| ProcessingFinished.                            (* processing_finished *)


(** The command [run_tagger] starts. *)
Definition command (executable selected_path : string) (chk_subdirs : bool)
  : list string :=
  ([executable; "mutagen-tagger.py"; "-p"; selected_path]
   ++ (if negb chk_subdirs then ["--no-recurse"] else []))%list.

(** The body of the loop of [run_tagger] on one line read from the pipe. *)
Definition handle_line (line : string) : outcome (list ui_call) :=
  let line := Py.strip line in
  if String.eqb line "" then Ret []
  else if prefix "INFO: Found:" line then
    match nth_error (PyStr.split line "INFO: Found: ") 1 with
    | Some filepath =>
        let filename := os_path_basename filepath in
        Ret [ConfigureProgress ("Procesando: " ++ filename) "yellow";
             AppendSummary line]
    | None => Exc IndexError
    end
  else Ret [AppendSummary line].

(** The loop over the lines read until the end of the output: the calls
    scheduled so far, and the exception that ended the thread if any. *)
Fixpoint read_lines (lines : list string) : list ui_call * outcome unit :=
  match lines with
  | [] => ([], Ret tt)
  | line :: rest =>
      match handle_line line with
      | Ret calls =>
          let (more, o) := read_lines rest in ((calls ++ more)%list, o)
      | Exc e => ([], Exc e)
      end
  end.

(** [run_tagger] once the process is started. *)
Definition run_tagger (lines : list string) : list ui_call * outcome unit :=
  match read_lines lines with
  | (calls, Ret _) => ((calls ++ [ProcessingFinished])%list, Ret tt)
  | (calls, Exc e) => (calls, Exc e)
  end.

Definition summaries (calls : list ui_call) : list string :=
  flat_map (fun c => match c with AppendSummary t => [t] | _ => [] end) calls.

Definition progress (calls : list ui_call) : list string :=
  flat_map (fun c => match c with ConfigureProgress t _ => [t] | _ => [] end)
           calls.

End GUI.


(** ** Further scripted data *)

Module Stored.

(** A file with artist, title and comment, and the tags read from it once
    the genre "Rock" was stored in it. *)
Definition before : audiofile :=
  mkAudio [("artist", ["Queen"]); ("title", ["Bijou"]); ("comment", ["live"])].

Definition library (file_path : string) : option audiofile :=
  if String.eqb file_path "/music/s.flac" || String.eqb file_path "/music/s.mp3"
  then Some (audiofile_set before "genre" "Rock")
  else None.

Definition host : Host Mock.world :=
  mkHost Mock.decimal
         (fun _ => Ret tt)
         (fun secs w =>
            (Ret tt, Mock.mkWorld (Mock.pending w) (Mock.slept w + secs)))
         (fun _ w => (Ret [], w))
         (fun _ w => (Ret (mkResponse 404 ""), w))
         (fun _ => Ret None)
         (fun file_path w => (Ret (library file_path), w))
         (fun _ _ w => (Ret tt, w))
         (fun p => p)
         (fun _ => None)
         (fun _ _ w => (Ret tt, w)).

(** No credentials and no optional package. *)
Definition bare : installation Mock.world :=
  mkInstallation (Exc (OtherException "no client id")) None "" "" None "" false.

(** Credentials for the social-tagging network only. *)
Definition lastfm_only : installation Mock.world :=
  mkInstallation (Exc (OtherException "no client id"))
                 (Some (fun _ _ => mkLastfm (fun _ _ w => (Ret ["rock"], w))))
                 "key" "secret" None "" true.

Definition no_catalog (sp : spotify_client Mock.world) (artist track : string)
    (w : Mock.world) : outcome (option string) * Mock.world :=
  (Ret None, w).

End Stored.

(* ================================================================== *)
(** * Properties *)
(* ================================================================== *)

(** ** The trace *)

Lemma invocations_app (t1 t2 : list event) :
  invocations (t1 ++ t2) = (invocations t1 ++ invocations t2)%list.
Proof. unfold invocations. apply flat_map_app. Qed.

Lemma sleeps_app (t1 t2 : list event) :
  sleeps (t1 ++ t2) = (sleeps t1 ++ sleeps t2)%list.
Proof. unfold sleeps. apply flat_map_app. Qed.

Lemma searches_app (t1 t2 : list event) :
  searches (t1 ++ t2) = (searches t1 ++ searches t2)%list.
Proof. unfold searches. apply flat_map_app. Qed.

Lemma written_files_app (t1 t2 : list event) :
  written_files (t1 ++ t2) = (written_files t1 ++ written_files t2)%list.
Proof. unfold written_files. apply flat_map_app. Qed.

Lemma ext_trace {W A} (ev : event) (f : W -> outcome A * W) st o st1 :
  ext ev f st = (o, st1) -> trace st1 = (trace st ++ [ev])%list.
Proof.
  unfold ext. destruct (f (world st)) as [o' w']. intros H.
  inversion H; subst. reflexivity.
Qed.

(** ** The fallback resolver *)

Section Resolver.

Context {W Client : Type}.

Implicit Types (p : provider W Client) (providers : list (provider W Client)).
Implicit Types (st : state W) (artist track : string).

Lemma invoke_trace p artist track st o st1 :
  invoke p artist track st = (o, st1) ->
  trace st1 = (trace st ++ [EvInvoke (name p) artist track])%list.
Proof. unfold invoke. apply ext_trace. Qed.

Lemma get_genre_cons_hit p providers artist track st result st1 :
  invoke p artist track st = (Ret result, st1) ->
  Py.truthy result = true ->
  get_genre (p :: providers) artist track st = (Ret result, st1).
Proof. intros Hcall Hres. simpl. rewrite Hcall, Hres. reflexivity. Qed.

Lemma get_genre_cons_pass p providers artist track st o st1 :
  invoke p artist track st = (o, st1) ->
  passed_over o = true ->
  get_genre (p :: providers) artist track st = get_genre providers artist track st1.
Proof.
  intros Hcall Hpass. simpl. rewrite Hcall.
  destruct o as [result | e]; [| reflexivity].
  simpl in Hpass. apply negb_true_iff in Hpass. rewrite Hpass. reflexivity.
Qed.

Lemma no_result_passed_over (o : outcome (option string)) :
  no_result o = true -> passed_over o = true.
Proof. destruct o as [[s |] | e]; simpl; intros H; try discriminate; reflexivity. Qed.

Lemma invoke_all_weaken (ok ok' : outcome (option string) -> bool) :
  (forall o, ok o = true -> ok' o = true) ->
  forall providers artist track st st1,
    invoke_all ok providers artist track st = Some st1 ->
    invoke_all ok' providers artist track st = Some st1.
Proof.
  intros Hw providers artist track.
  induction providers as [| p providers IH]; intros st st1 H; simpl in *.
  - exact H.
  - destruct (invoke p artist track st) as [o st'].
    destruct (ok o) eqn:Hok; [| discriminate].
    rewrite (Hw _ Hok). apply IH. exact H.
Qed.

Lemma invoke_all_invocations (ok : outcome (option string) -> bool)
    providers artist track :
  forall st st1,
    invoke_all ok providers artist track st = Some st1 ->
    invocations (trace st1)
    = (invocations (trace st) ++ map name providers)%list.
Proof.
  induction providers as [| p providers IH]; intros st st1 H; simpl in *.
  - inversion H; subst. rewrite app_nil_r. reflexivity.
  - destruct (invoke p artist track st) as [o st'] eqn:Hcall.
    destruct (ok o); [| discriminate].
    rewrite (IH _ _ H), (invoke_trace _ _ _ _ _ _ Hcall), invocations_app.
    simpl. rewrite <- app_assoc. reflexivity.
Qed.

Lemma get_genre_passes_over providers artist track :
  forall st st1,
    invoke_all passed_over providers artist track st = Some st1 ->
    forall rest,
      get_genre (providers ++ rest) artist track st
      = get_genre rest artist track st1.
Proof.
  induction providers as [| p providers IH]; intros st st1 H rest; simpl in H.
  - inversion H; subst. reflexivity.
  - destruct (invoke p artist track st) as [o st'] eqn:Hcall.
    destruct (passed_over o) eqn:Hpass; [| discriminate].
    rewrite <- app_comm_cons.
    rewrite (get_genre_cons_pass _ _ _ _ _ _ _ Hcall Hpass).
    apply IH. exact H.
Qed.

(** The resolver never raises, and what it returns is [None] or a
    non-empty string. *)
Lemma get_genre_returns providers artist track :
  forall st, exists result st1,
    get_genre providers artist track st = (Ret result, st1)
    /\ (result = None \/ Py.truthy result = true).
Proof.
  induction providers as [| p providers IH]; intros st; simpl.
  - exists None, st. split; [reflexivity | left; reflexivity].
  - destruct (invoke p artist track st) as [[result | e] st'].
    + destruct (Py.truthy result) eqn:Hres.
      * exists result, st'. split; [reflexivity | right; exact Hres].
      * apply IH.
    + apply IH.
Qed.

Lemma get_genre_some_non_empty providers artist track st g st1 :
  get_genre providers artist track st = (Ret (Some g), st1) -> g <> EmptyString.
Proof.
  intros H. destruct (get_genre_returns providers artist track st)
    as (result & st' & Heq & Hres).
  rewrite Heq in H. inversion H; subst.
  destruct Hres as [Hnone | Htruthy]; [discriminate |].
  simpl in Htruthy. intros ->. discriminate.
Qed.

(** C1 (amended).  The resolver invokes the providers in list order and
    returns at once the first result that is neither [None] nor the empty
    string: when the providers [before] are all passed over (exception,
    [None] or empty string) and [p] answers a non-empty [result], the
    resolver returns [result] in the state [p] left, and the adapters it
    invoked are those of [before] and then [p], in that order; no provider
    of [after] is invoked. *)
Theorem get_genre_first_non_empty
    (before after : list (provider W Client)) p artist track st st1 result st2 :
  invoke_all passed_over before artist track st = Some st1 ->
  invoke p artist track st1 = (Ret result, st2) ->
  Py.truthy result = true ->
  get_genre (before ++ p :: after) artist track st = (Ret result, st2)
  /\ invocations (trace st2)
     = (invocations (trace st) ++ map name (before ++ [p]))%list.
Proof.
  intros Hbefore Hcall Hres. split.
  - rewrite (get_genre_passes_over _ _ _ _ _ Hbefore).
    apply get_genre_cons_hit; assumption.
  - rewrite (invoke_trace _ _ _ _ _ _ Hcall), invocations_app.
    rewrite (invoke_all_invocations _ _ _ _ _ _ Hbefore).
    rewrite map_app, <- app_assoc. reflexivity.
Qed.

(** C4.  The resolver never raises; an adapter that raises counts as a
    provider without result and the iteration goes on with the next
    provider; and when every provider raises or returns [None], the
    resolver returns [None] after having invoked all of them. *)
Theorem get_genre_catches_exceptions providers artist track st :
  (exists result st1, get_genre providers artist track st = (Ret result, st1))
  /\ (forall p rest e st1,
        providers = p :: rest ->
        invoke p artist track st = (Exc e, st1) ->
        get_genre providers artist track st = get_genre rest artist track st1)
  /\ (forall st1,
        invoke_all no_result providers artist track st = Some st1 ->
        get_genre providers artist track st = (Ret None, st1)
        /\ invocations (trace st1)
           = (invocations (trace st) ++ map name providers)%list).
Proof.
  split; [| split].
  - destruct (get_genre_returns providers artist track st)
      as (result & st1 & Heq & _).
    exists result, st1. exact Heq.
  - intros p rest e st1 -> Hcall.
    apply (get_genre_cons_pass _ _ _ _ _ _ _ Hcall). reflexivity.
  - intros st1 Hall. split.
    + pose proof (invoke_all_weaken _ _ no_result_passed_over _ _ _ _ _ Hall)
        as Hpass.
      pose proof (get_genre_passes_over _ _ _ _ _ Hpass []) as Heq.
      rewrite app_nil_r in Heq. exact Heq.
    + exact (invoke_all_invocations _ _ _ _ _ _ Hall).
Qed.

End Resolver.

(** ** The catalog-search adapter and its rate-limit handler *)

Section Spotify.

Context {W : Type} (host : Host W).

Implicit Types (sp : spotify_client W) (st : state W) (artist track : string).

Ltac finish_trace :=
  repeat match goal with
         | H : (_, _) = (_, _) |- _ => inversion H; subst; clear H
         | H : trace _ = _ |- _ => rewrite H; clear H
         end;
  repeat rewrite sleeps_app; repeat rewrite searches_app; simpl;
  repeat rewrite app_nil_r; auto.

Lemma spotify_try_trace sp artist track st o st1 :
  spotify_try sp artist track st = (o, st1) ->
  sleeps (trace st1) = sleeps (trace st)
  /\ searches (trace st1)
     = (searches (trace st)
        ++ ["artist:" ++ artist ++ " track:" ++ track]%string)%list.
Proof.
  unfold spotify_try, bind.
  set (q := ("artist:" ++ artist ++ " track:" ++ track)%string).
  destruct (ext (EvSpotifySearch q) (sp_search sp q) st)
    as [[items | e] sta] eqn:Hsearch; apply ext_trace in Hsearch;
    [| intros H; finish_trace].
  destruct items as [| track_id items]; [unfold ret; intros H; finish_trace |].
  destruct (ext (EvSpotifyTrack track_id) (sp_track sp track_id) sta)
    as [[artists | e] stb] eqn:Htrack; apply ext_trace in Htrack;
    [| intros H; finish_trace].
  destruct artists as [| artist_id artists]; simpl;
    [unfold raise; intros H; finish_trace |].
  destruct (ext (EvSpotifyArtist artist_id) (sp_artist sp artist_id) stb)
    as [[genres | e] stc] eqn:Hartist; apply ext_trace in Hartist;
    [| intros H; finish_trace].
  destruct genres; unfold ret; intros H; finish_trace.
Qed.

Lemma sleep_trace secs st st1 :
  sleep host secs st = (Ret tt, st1) ->
  sleeps (trace st1) = (sleeps (trace st) ++ [secs])%list
  /\ searches (trace st1) = searches (trace st).
Proof.
  unfold sleep. destruct (time_convert host secs); [| discriminate].
  destruct (secs <? 0)%Z; [discriminate |].
  destruct (time_sleep host secs (world st)) as [[[] | e] w']; intros H;
    inversion H; subst.
  simpl. rewrite sleeps_app, searches_app. simpl. rewrite app_nil_r. auto.
Qed.



Lemma get_genre_spotify_rate_limited n sp artist track :
  forall st st1 fuel,
    rate_limited host n sp artist track st = Some st1 ->
    get_genre_spotify host (n + fuel) sp artist track st
    = get_genre_spotify host fuel sp artist track st1.
Proof.
  induction n as [| n IH]; intros st st1 fuel H; simpl in H.
  - inversion H; subst. reflexivity.
  - simpl. destruct (spotify_try sp artist track st) as [[r | e] sta];
      [discriminate |].
    destruct e as [status headers | | | |]; try discriminate.
    destruct (status =? 429)%Z; [| discriminate].
    destruct (retry_after_of host headers) as [secs | e]; [| discriminate].
    destruct (sleep host secs sta) as [[[] | e] stb]; [| discriminate].
    apply IH. exact H.
Qed.


(** The adapter counts no retries: against a source that answers every
    lookup with the rate-limit signal, the nested calls reach the recursion
    limit, whatever the number of calls that fit under it. *)
Lemma get_genre_spotify_reaches_recursion_limit sp artist track :
  (forall st, exists st1, rate_limited host 1 sp artist track st = Some st1) ->
  forall fuel st, get_genre_spotify host fuel sp artist track st = None.
Proof.
  intros Hbusy fuel. induction fuel as [| fuel IH]; intros st; [reflexivity |].
  destruct (Hbusy st) as [st1 H1].
  change (S fuel) with (1 + fuel).
  rewrite (get_genre_spotify_rate_limited _ _ _ _ _ _ _ H1). apply IH.
Qed.

End Spotify.

(** ** Title case and the strings the adapters build *)

Lemma cased_to_upper (c : ascii) :
  (Py.is_lower (Py.to_upper c) || Py.is_upper (Py.to_upper c))
  = (Py.is_lower c || Py.is_upper c).
Proof. destruct c as [[] [] [] [] [] [] [] []]; reflexivity. Qed.

Lemma cased_to_lower (c : ascii) :
  (Py.is_lower (Py.to_lower c) || Py.is_upper (Py.to_lower c))
  = (Py.is_lower c || Py.is_upper c).
Proof. destruct c as [[] [] [] [] [] [] [] []]; reflexivity. Qed.

Lemma to_upper_idempotent (c : ascii) :
  Py.to_upper (Py.to_upper c) = Py.to_upper c.
Proof. destruct c as [[] [] [] [] [] [] [] []]; reflexivity. Qed.

Lemma to_lower_idempotent (c : ascii) :
  Py.to_lower (Py.to_lower c) = Py.to_lower c.
Proof. destruct c as [[] [] [] [] [] [] [] []]; reflexivity. Qed.

Lemma title_from_idempotent (s : string) :
  forall b, Py.title_from b (Py.title_from b s) = Py.title_from b s.
Proof.
  induction s as [| c s IH]; intros b; simpl; [reflexivity |].
  destruct (Py.is_lower c || Py.is_upper c) eqn:Hc; simpl.
  - destruct b.
    + rewrite cased_to_lower, Hc, to_lower_idempotent, IH. reflexivity.
    + rewrite cased_to_upper, Hc, to_upper_idempotent, IH. reflexivity.
  - rewrite Hc, IH. reflexivity.
Qed.

Lemma title_from_app (s1 s2 : string) :
  forall b,
    Py.title_from b (s1 ++ s2)
    = (Py.title_from b s1 ++ Py.title_from (ends_cased b s1) s2)%string.
Proof.
  induction s1 as [| c s1 IH]; intros b; simpl; [reflexivity |].
  destruct (Py.is_lower c || Py.is_upper c); rewrite IH; reflexivity.
Qed.

Lemma title_comma_blank (b : bool) (s : string) :
  Py.title_from b (", " ++ s) = (", " ++ Py.title s)%string.
Proof. reflexivity. Qed.

(** The string an adapter builds from a list of terms is in title case:
    [title()] leaves it as it is. *)
Lemma join_titles_title_case (genres : list string) :
  Py.title (join_titles genres) = join_titles genres.
Proof.
  unfold join_titles, Py.join.
  induction genres as [| g genres IH]; [reflexivity |].
  destruct genres as [| g' genres].
  - simpl. apply title_from_idempotent.
  - simpl map in *.
    set (rest := String.concat ", " (Py.title g' :: map Py.title genres)) in *.
    change (String.concat ", " (Py.title g :: Py.title g' :: map Py.title genres))
      with (Py.title g ++ ", " ++ rest)%string.
    unfold Py.title in *.
    rewrite title_from_app, title_from_idempotent, title_comma_blank.
    unfold Py.title. rewrite IH. reflexivity.
Qed.

Section Adapters.

Context {W : Type} (host : Host W).

Lemma get_genre_lastfm_result (network : lastfm_network W) artist track w :
  exists result w1,
    get_genre_lastfm network artist track w = (Ret result, w1)
    /\ genre_list_string result.
Proof.
  unfold get_genre_lastfm.
  destruct (lastfm_top_tags network artist track w) as [[top_tags | e] w1].
  - match goal with |- context [filter ?f top_tags] =>
      destruct (filter f top_tags) as [| g genres] end.
    + exists None, w1. split; [reflexivity | left; reflexivity].
    + eexists _, w1. split; [reflexivity |].
      right. exists (g :: genres). split; [discriminate | reflexivity].
  - exists None, w1. split; [reflexivity | left; reflexivity].
Qed.

Lemma get_genre_discogs_result (d_client : discogs_client W) artist track w :
  exists result w1,
    get_genre_discogs d_client artist track w = (Ret result, w1)
    /\ genre_list_string result.
Proof.
  unfold get_genre_discogs.
  destruct (discogs_page1 d_client (artist ++ " " ++ track)%string w)
    as [[[| release page] | e] w1];
    try (exists None, w1; split; [reflexivity | left; reflexivity]).
  cbv zeta.
  destruct (or_empty (release_genres release) ++ or_empty (release_styles release))%list
    as [| g combined].
  - exists None, w1. split; [reflexivity | left; reflexivity].
  - eexists _, w1. split; [reflexivity |].
    right. exists (g :: combined). split; [discriminate | reflexivity].
Qed.

Lemma spotify_try_result (sp : spotify_client W) artist track st result st1 :
  spotify_try sp artist track st = (Ret result, st1) ->
  genre_list_string result.
Proof.
  unfold spotify_try, bind, subscript0, ret, raise.
  destruct (ext _ _ st) as [[[| track_id items] | e] sta]; intros H;
    try discriminate; [inversion H; left; reflexivity |].
  destruct (ext _ _ sta) as [[[| artist_id artists] | e] stb];
    try discriminate.
  destruct (ext _ _ stb) as [[[| g genres] | e] stc]; try discriminate;
    inversion H; subst; [left; reflexivity |].
  right. exists (g :: genres). split; [discriminate | reflexivity].
Qed.

(** The encyclopedia adapter never raises. *)
Lemma fetch_wiki_genre_returns query w :
  exists result w1, _fetch_wiki_genre host query w = (Ret result, w1).
Proof.
  unfold _fetch_wiki_genre.
  destruct (wikipedia_search host query w) as [[[| title search] | e] w1];
    try (eexists _, _; reflexivity).
  destruct (requests_get host _ w1) as [[res | e] w2];
    try (eexists _, _; reflexivity).
  destruct (negb (status_code res =? 200)%Z); [eexists _, _; reflexivity |].
  destruct (soup_infobox host (text res)) as [[infobox |] | e];
    eexists _, _; reflexivity.
Qed.

(** A genre row whose cell has no list items and only blank text between
    its separators yields the empty string, not [None]. *)
Lemma wiki_rows_genre_blank_cell (th : string) (cell : string)
    (rows : list wiki_tr) :
  Py.contains "genre" (Py.lower th) = true ->
  filter (fun i => negb (String.eqb (Py.strip i) ""))
         (Py.re_split bar_or_comma cell) = [] ->
  wiki_rows_genre (mkTr (Some th) (Some (mkTd [] cell)) :: rows)
  = Some EmptyString.
Proof. intros Hth Hblank. simpl. rewrite Hth, Hblank. reflexivity. Qed.

End Adapters.

(** C5, on the encyclopedia adapter.  For a page whose infobox has a genre
    row with a blank cell, [_fetch_wiki_genre] and the two adapters built on
    it return the empty string where the sibling adapters, which test the
    list of terms before joining it, return [None]. *)
Theorem fetch_wiki_genre_blank_cell_empty_string :
  _fetch_wiki_genre Mock.host "Innuendo Queen song" (Mock.mkWorld [] 0)
  = (Ret (Some EmptyString), Mock.mkWorld [] 0)
  /\ get_genre_wikipedia_track Mock.host tt "Queen" "Innuendo" (Mock.mkWorld [] 0)
     = (Ret (Some EmptyString), Mock.mkWorld [] 0)
  /\ get_genre_wikipedia_artist Mock.host tt "Queen" "Innuendo" (Mock.mkWorld [] 0)
     = (Ret (Some EmptyString), Mock.mkWorld [] 0).
Proof. repeat split; reflexivity. Qed.

(** ** The file processor *)

Section FileProcessor.

Context {W Client : Type} (host : Host W).

Implicit Types (providers : list (provider W Client)) (st : state W).
Implicit Types (file_path : string).

Lemma truthy_some (s : string) :
  Py.truthy (Some s) = true <-> s <> EmptyString.
Proof.
  simpl. rewrite negb_true_iff. split.
  - intros H ->. discriminate.
  - intros H. apply String.eqb_neq. exact H.
Qed.

Lemma subscript0_state {A} (l : list A) st (o : outcome A) st1 :
  subscript0 l st = (o, st1) -> st1 = st.
Proof.
  destruct l; unfold subscript0, raise, ret; intros H; inversion H; reflexivity.
Qed.

Lemma read_fields_state file_path (a : audiofile) st o st1 :
  read_fields file_path a st = (o, st1) -> st1 = st.
Proof.
  unfold read_fields, bind.
  repeat match goal with
         | |- context [subscript0 ?l ?s] =>
             let H := fresh "H" in
             destruct (subscript0 l s) as [[? | ?] ?] eqn:H;
             apply subscript0_state in H; subst
         | |- context [if ?b then _ else _] => destruct b
         end;
    unfold ret; intros H; inversion H; reflexivity.
Qed.

(** [extract_metadata] never raises, opens the file once, and returns
    either the all-[None] tuple or a tuple whose artist and title are
    non-empty strings. *)
Lemma extract_metadata_returns file_path st :
  exists fields st1,
    extract_metadata host file_path st = (Ret fields, st1)
    /\ trace st1 = (trace st ++ [EvMutagenFile file_path])%list
    /\ (fields = no_metadata
        \/ exists artist title comments genre,
             fields = (Some artist, Some title, comments, genre)
             /\ artist <> EmptyString /\ title <> EmptyString).
Proof.
  unfold extract_metadata, bind.
  destruct (ext (EvMutagenFile file_path) (mutagen_File host file_path) st)
    as [[[a |] | e] sta] eqn:Hopen; apply ext_trace in Hopen.
  - destruct (read_fields file_path a sta) as [[fields | e] stb] eqn:Hread;
      apply read_fields_state in Hread; subst stb.
    + destruct fields as [[[artist title] comments] genre].
      destruct (Py.truthy artist && Py.truthy title) eqn:Hboth; unfold ret.
      * eexists _, sta. split; [reflexivity |]. split; [exact Hopen |].
        right. apply andb_true_iff in Hboth. destruct Hboth as [Ha Ht].
        destruct artist as [artist |]; [| discriminate].
        destruct title as [title |]; [| discriminate].
        exists artist, title, comments, genre.
        split; [reflexivity |]. split; apply truthy_some; assumption.
      * eexists _, sta. split; [reflexivity |]. split; [exact Hopen |].
        left. reflexivity.
    + eexists _, sta. split; [reflexivity |]. split; [exact Hopen |].
      left. reflexivity.
  - unfold ret. eexists _, sta. split; [reflexivity |]. split; [exact Hopen |].
    left. reflexivity.
  - eexists _, sta. split; [reflexivity |]. split; [exact Hopen |].
    left. reflexivity.
Qed.

Lemma extract_metadata_invocations file_path st o st1 :
  extract_metadata host file_path st = (o, st1) ->
  invocations (trace st1) = invocations (trace st).
Proof.
  intros H.
  destruct (extract_metadata_returns file_path st) as (f & st' & Heq & Htr & _).
  rewrite Heq in H. inversion H; subst.
  rewrite Htr, invocations_app. simpl. apply app_nil_r.
Qed.

(** A file without artist or title tag, or with an empty one, extracts to
    the all-[None] tuple. *)
Lemma extract_metadata_missing_tag file_path st (a : audiofile) w1 :
  mutagen_File host file_path (world st) = (Ret (Some a), w1) ->
  (forall v, hd_error (audiofile_get a "artist") = Some v -> Py.truthy v = false)
  \/ (forall v, hd_error (audiofile_get a "title") = Some v -> Py.truthy v = false) ->
  fst (extract_metadata host file_path st) = Ret no_metadata.
Proof.
  intros Hopen Hmissing.
  destruct (extract_metadata_returns file_path st)
    as (fields & st1 & Heq & _ & [Hnone | Hsome]).
  - rewrite Heq, Hnone. reflexivity.
  - exfalso. destruct Hsome as (artist & title & comments & genre & -> & Ha & Ht).
    revert Heq. unfold extract_metadata, bind, ext. rewrite Hopen.
    unfold read_fields, bind.
    destruct (audiofile_get a "artist") as [| v1 l1] eqn:H1; simpl;
      [discriminate |].
    destruct (audiofile_get a "title") as [| v2 l2] eqn:H2; simpl;
      [discriminate |].
    assert (Hv : Py.truthy v1 && Py.truthy v2 = false).
    { destruct Hmissing as [Hm | Hm].
      - rewrite (Hm v1 eq_refl). reflexivity.
      - rewrite (Hm v2 eq_refl). apply andb_false_r. }
    destruct (is_flac file_path).
    + destruct (audiofile_get a "comment") as [| v3 l3]; simpl; [discriminate |].
      destruct (audiofile_get a "genre") as [| v4 l4]; simpl; [discriminate |].
      rewrite Hv. unfold ret, no_metadata. discriminate.
    + destruct (audiofile_get a "COMM::eng") as [| v3 l3]; simpl; [discriminate |].
      destruct (audiofile_get a "TCON") as [| v4 l4]; simpl; [discriminate |].
      rewrite Hv. unfold ret, no_metadata. discriminate.
Qed.

(** [update_genre] never raises, whatever the tag library does, and calls
    no provider. *)
Lemma update_genre_returns file_path genre st :
  exists st1,
    update_genre host file_path genre st = (Ret tt, st1)
    /\ invocations (trace st1) = invocations (trace st).
Proof.
  unfold update_genre, bind.
  destruct (ext (EvMutagenFile file_path) (mutagen_File host file_path) st)
    as [[[a |] | e] sta] eqn:Hopen; apply ext_trace in Hopen.
  - destruct (ext (EvSave file_path genre) _ sta) as [[[] | e] stb] eqn:Hsave;
      apply ext_trace in Hsave; exists stb; (split; [reflexivity |]);
      rewrite Hsave, Hopen, !invocations_app; simpl; rewrite !app_nil_r;
      reflexivity.
  - unfold ret. exists sta. split; [reflexivity |].
    rewrite Hopen, invocations_app. simpl. apply app_nil_r.
  - exists sta. split; [reflexivity |].
    rewrite Hopen, invocations_app. simpl. apply app_nil_r.
Qed.

(** C3.  When the extracted metadata has a non-empty artist, a non-empty
    title and a non-empty genre, [process_file] returns the file name with
    that genre, in the state the extraction left: no provider adapter is
    invoked. *)
Theorem process_file_already_tagged
    providers file_path st artist title comments genre st1 :
  extract_metadata host file_path st
  = (Ret (Some artist, Some title, comments, Some genre), st1) ->
  artist <> EmptyString -> title <> EmptyString -> genre <> EmptyString ->
  process_file host providers file_path st
  = (Ret (os_path_basename file_path, Some genre), st1)
  /\ invocations (trace st1) = invocations (trace st).
Proof.
  intros Hextract Ha Ht Hg. split.
  - unfold process_file, bind. rewrite Hextract.
    apply truthy_some in Ha, Ht, Hg. rewrite Ha, Ht, Hg. reflexivity.
  - exact (extract_metadata_invocations _ _ _ _ Hextract).
Qed.

(** C6.  When the file has artist and title but no genre and the resolver
    returns a genre, [process_file] returns that genre whatever happens in
    [update_genre]: the tag library may fail to open or to save the file,
    the reported genre is the resolved one. *)
Theorem process_file_reports_resolved_genre
    providers file_path st artist title comments genre st1 new_genre st2 :
  extract_metadata host file_path st
  = (Ret (Some artist, Some title, comments, genre), st1) ->
  Py.truthy genre = false ->
  get_genre providers artist title st1 = (Ret (Some new_genre), st2) ->
  process_file host providers file_path st
  = (Ret (os_path_basename file_path, Some new_genre),
     snd (update_genre host file_path new_genre st2)).
Proof.
  intros Hextract Hgenre Hresolve.
  destruct (extract_metadata_returns file_path st)
    as (fields & st' & Heq & _ & [Hnone | Hsome]);
    rewrite Heq in Hextract; inversion Hextract; subst.
  - discriminate.
  - destruct Hsome as (a & t & c & g & Hf & Ha & Ht). inversion Hf; subst.
    apply truthy_some in Ha, Ht.
    pose proof (get_genre_some_non_empty _ _ _ _ _ _ Hresolve) as Hnew.
    apply truthy_some in Hnew.
    unfold process_file, bind. rewrite Heq, Ha, Ht, Hgenre. cbn [andb].
    rewrite Hresolve, Hnew.
    destruct (update_genre_returns file_path new_genre st2) as (st3 & Hupd & _).
    rewrite Hupd. reflexivity.
Qed.

(** C7.  When the extracted artist or title is missing or empty,
    [process_file] returns the file name with genre [None] in the state the
    extraction left: no provider is queried. *)
Theorem process_file_missing_artist_or_title
    providers file_path st artist title comments genre st1 :
  extract_metadata host file_path st
  = (Ret (artist, title, comments, genre), st1) ->
  Py.truthy artist = false \/ Py.truthy title = false ->
  process_file host providers file_path st
  = (Ret (os_path_basename file_path, None), st1)
  /\ invocations (trace st1) = invocations (trace st).
Proof.
  intros Hextract Hmissing. split.
  - unfold process_file, bind. rewrite Hextract.
    destruct artist as [a |]; [| reflexivity].
    destruct title as [t |]; [| reflexivity].
    destruct Hmissing as [H | H]; rewrite H;
      [| rewrite andb_false_r]; reflexivity.
  - exact (extract_metadata_invocations _ _ _ _ Hextract).
Qed.

(** [process_file] never raises. *)
Lemma process_file_returns providers file_path st :
  exists genre st1,
    process_file host providers file_path st
    = (Ret (os_path_basename file_path, genre), st1).
Proof.
  unfold process_file, bind.
  destruct (extract_metadata_returns file_path st) as (fields & st1 & Heq & _).
  rewrite Heq. destruct fields as [[[artist title] comments] genre].
  destruct artist as [a |]; [| eexists _, _; reflexivity].
  destruct title as [t |]; [| eexists _, _; reflexivity].
  destruct (Py.truthy (Some a) && Py.truthy (Some t));
    [| eexists _, _; reflexivity].
  destruct (Py.truthy genre); [eexists _, _; reflexivity |].
  destruct (get_genre_returns providers a t st1) as (r & st2 & Hres & _).
  rewrite Hres. destruct r as [g |]; [| eexists _, _; reflexivity].
  destruct (Py.truthy (Some g)); [| eexists _, _; reflexivity].
  destruct (update_genre_returns file_path g st2) as (st3 & Hupd & _).
  rewrite Hupd. eexists _, _; reflexivity.
Qed.

End FileProcessor.

(** ** The report *)

Lemma floordiv_by_positive (a b : nat) :
  b <> 0 -> floordiv a b = Ret (a / b).
Proof.
  intros Hb. unfold floordiv. destruct (b =? 0) eqn:E; [| reflexivity].
  apply Nat.eqb_eq in E. contradiction.
Qed.

Lemma without_genre_count (results : list (string * option string)) :
  List.length (filter (fun r => negb (has_genre r)) results)
  = List.length results - List.length (filter has_genre results).
Proof. pose proof (filter_length has_genre results). lia. Qed.

Lemma floor_bounds (a b : nat) :
  b <> 0 -> (a / b) * b <= a < (a / b + 1) * b.
Proof.
  intros Hb. pose proof (Nat.div_mod_eq a b) as Hdiv.
  pose proof (Nat.mod_upper_bound a b Hb) as Hmod. nia.
Qed.

Lemma report_text_non_empty (r : string * option string)
    (results : list (string * option string)) :
  exists content, report_text (r :: results) = Ret content.
Proof.
  unfold report_text.
  rewrite !floordiv_by_positive by (simpl; discriminate).
  eexists. reflexivity.
Qed.

(** [str] of a number is its decimal numeral: [int] reads the number
    back. *)
Lemma int_of_str_of_nat (n : nat) : int_of_str (Py.str_of_nat n) = Some n.
Proof.
  unfold int_of_str, Py.str_of_nat.
  rewrite NilZero.usu.
  - simpl. rewrite DecimalNat.Unsigned.of_to. reflexivity.
  - intros H. pose proof (DecimalNat.Unsigned.of_to n) as Hn.
    rewrite H in Hn. destruct n; [| discriminate].
    discriminate.
Qed.

(** C8.  For a non-empty outcome list of [N] files of which [k] have a
    genre, the report begins with the title, a rule of sixty [=] and the
    three lines of the counts, in which the numeral after the count of the
    files with a genre is that of [k * 100 / N] and the numeral after the
    count of the files without is that of [(N - k) * 100 / N]; each is the
    floor of the exact quotient. *)
Theorem report_percentages_floor (results : list (string * option string)) :
  results <> [] ->
  let N := List.length results in
  let k := List.length (filter has_genre results) in
  let pct_with := k * 100 / N in
  let pct_without := (N - k) * 100 / N in
  let newline := String "010"%char EmptyString in
  (exists rest,
      report_text results
      = Ret ("Genre Report" ++ newline
             ++ "============================================================"
             ++ newline
             ++ "Total files processed : " ++ Py.str_of_nat N ++ newline
             ++ "With genre tag        : " ++ Py.str_of_nat k
             ++ " (" ++ Py.str_of_nat pct_with ++ "%)" ++ newline
             ++ "Without genre tag     : " ++ Py.str_of_nat (N - k)
             ++ " (" ++ Py.str_of_nat pct_without ++ "%)" ++ newline
             ++ rest)%string)
  /\ int_of_str (Py.str_of_nat pct_with) = Some pct_with
  /\ int_of_str (Py.str_of_nat pct_without) = Some pct_without
  /\ pct_with * N <= k * 100 < (pct_with + 1) * N
  /\ pct_without * N <= (N - k) * 100 < (pct_without + 1) * N.
Proof.
  intros Hne N k pct_with pct_without newline.
  assert (HN : N <> 0).
  { subst N. destruct results; [contradiction | discriminate]. }
  split; [| split; [apply int_of_str_of_nat |
            split; [apply int_of_str_of_nat |
              split; apply floor_bounds; exact HN]]].
  unfold report_text. fold N. fold k.
  rewrite without_genre_count. fold N. fold k.
  rewrite !floordiv_by_positive by exact HN.
  fold pct_with. fold pct_without.
  unfold render_report, rule, nl. eexists. reflexivity.
Qed.

(** Seven files of which three have a genre: 42% and 57%. *)
Lemma report_seven_files_three_tagged :
  report_text Mock.seven_results
  = Ret (render_report 7 3 4 42 57
           [("1.mp3", Some "Rock"); ("3.mp3", Some "Pop, Soul");
            ("6.mp3", Some "Jazz")]
           [("2.mp3", None); ("4.mp3", None); ("5.mp3", Some "");
            ("7.mp3", None)]).
Proof. reflexivity. Qed.

Section Report.

Context {W Client : Type} (host : Host W).

(** C10.  With an empty result list the report step does nothing: no file
    is written and [report_text], which divides by the number of results,
    is not evaluated; on a non-empty list the division never raises.  A run
    over a directory in which no supported file is found ends in the state
    it started from. *)
Theorem no_report_without_results
    (providers : list (provider W Client)) (args : arguments) (st : state W) :
  (forall expanded_path,
      write_report host args expanded_path [] st = (Ret tt, st))
  /\ (forall r results, exists content, report_text (r :: results) = Ret content)
  /\ (forall d entries,
        os_stat host (os_path_expanduser host (path args)) = Some (Dir d entries) ->
        (if no_recurse args
         then found_flat (os_path_expanduser host (path args)) entries
         else found_walk (os_path_expanduser host (path args)) (Dir d entries))
        = [] ->
        main host providers args st = (Ret tt, st)
        /\ written_files (trace (snd (main host providers args st)))
           = written_files (trace st)).
Proof.
  split; [| split].
  - intros expanded_path. reflexivity.
  - intros r results.
    destruct (report_text_non_empty r results) as [content H].
    exists content. exact H.
  - intros d entries Hstat Hnone.
    assert (Hmain : main host providers args st = (Ret tt, st)).
    { unfold main. destruct providers as [| p ps]; [reflexivity |].
      cbv zeta. rewrite Hstat, Hnone. reflexivity. }
    split; [exact Hmain | rewrite Hmain; reflexivity].
Qed.

End Report.

(** ** Sorting file names *)

Lemma string_leb_trans (a : string) :
  forall b c,
    String.leb a b = true -> String.leb b c = true -> String.leb a c = true.
Proof.
  unfold String.leb.
  induction a as [| x a IH]; intros [| y b] [| z c]; simpl; try congruence.
  unfold Ascii.compare.
  destruct (N.compare_spec (N_of_ascii x) (N_of_ascii y)) as [Hxy | Hxy | Hxy];
    destruct (N.compare_spec (N_of_ascii y) (N_of_ascii z)) as [Hyz | Hyz | Hyz];
    try congruence.
  - rewrite Hxy, Hyz, N.compare_refl. apply IH.
  - intros _ _. rewrite Hxy. apply N.compare_lt_iff in Hyz. rewrite Hyz.
    reflexivity.
  - intros _ _. rewrite <- Hyz. apply N.compare_lt_iff in Hxy. rewrite Hxy.
    reflexivity.
  - intros _ _.
    assert (H : (N_of_ascii x ?= N_of_ascii z)%N = Lt)
      by (apply N.compare_lt_iff; lia).
    rewrite H. reflexivity.
Qed.

Lemma insert_sorted_perm (x : string) (l : list string) :
  Permutation (Py.insert_sorted x l) (x :: l).
Proof.
  induction l as [| y l IH]; simpl; [reflexivity |].
  destruct (String.leb x y); [reflexivity |].
  rewrite IH. apply perm_swap.
Qed.

Lemma sorted_perm (l : list string) : Permutation (Py.sorted l) l.
Proof.
  induction l as [| x l IH]; simpl; [reflexivity |].
  rewrite insert_sorted_perm, IH. reflexivity.
Qed.

Lemma insert_sorted_sorted (x : string) (l : list string) :
  sorted_names l -> sorted_names (Py.insert_sorted x l).
Proof.
  unfold sorted_names. induction l as [| y l IH]; intros Hl; simpl.
  - repeat constructor.
  - destruct (String.leb x y) eqn:Hxy.
    + constructor; [exact Hl | constructor; exact Hxy].
    + inversion Hl as [| ? ? Hl' Hhd]; subst.
      constructor; [apply IH; exact Hl' |].
      assert (Hyx : String.leb y x = true).
      { destruct (String.leb_total x y) as [H | H]; [congruence | exact H]. }
      destruct l as [| z l]; simpl.
      * constructor. exact Hyx.
      * destruct (String.leb x z); constructor; [exact Hyx |].
        inversion Hhd; subst. assumption.
Qed.

Lemma sorted_sorted (l : list string) : sorted_names (Py.sorted l).
Proof.
  induction l as [| x l IH]; simpl.
  - constructor.
  - apply insert_sorted_sorted. exact IH.
Qed.

Lemma filter_sorted (f : string -> bool) (l : list string) :
  sorted_names l -> sorted_names (filter f l).
Proof.
  unfold sorted_names. intros Hl.
  apply StronglySorted_Sorted.
  apply Sorted_StronglySorted in Hl;
    [| intros a b c; apply string_leb_trans].
  induction Hl as [| x l Hl IH Hall]; simpl; [constructor |].
  destruct (f x); [| exact IH].
  constructor; [exact IH |].
  apply Forall_forall. intros y Hy. apply filter_In in Hy.
  rewrite Forall_forall in Hall. apply Hall. tauto.
Qed.

Lemma filter_perm {A} (f : A -> bool) (l1 l2 : list A) :
  Permutation l1 l2 -> Permutation (filter f l1) (filter f l2).
Proof.
  induction 1 as [| x l1 l2 _ IH | x y l | l1 l2 l3 _ IH1 _ IH2]; simpl.
  - reflexivity.
  - destruct (f x); [constructor |]; exact IH.
  - destruct (f x), (f y); try reflexivity. apply perm_swap.
  - etransitivity; eassumption.
Qed.

(** ** Enumerating the files of a directory *)

Lemma node_forall_ind (P : node -> Prop) :
  (forall f, P (File f)) ->
  (forall d entries, Forall P entries -> P (Dir d entries)) ->
  (forall f, P (Special f)) ->
  forall n, P n.
Proof.
  intros HF HD HS. fix IH 1. intros [f | d entries | f].
  - apply HF.
  - apply HD. induction entries as [| e entries IHe].
    + constructor.
    + constructor; [apply IH | exact IHe].
  - apply HS.
Qed.

(** The [files] of [os.walk] are the entries that are no directories. *)
Lemma in_walk_files (f : string) (entries : list node) :
  In f (walk_files entries) <-> In (File f) entries \/ In (Special f) entries.
Proof.
  unfold walk_files. rewrite in_flat_map. split.
  - intros (e & He & Hf). destruct e as [g | d sub | g]; simpl in Hf.
    + destruct Hf as [-> | []]. left. exact He.
    + contradiction.
    + destruct Hf as [-> | []]. right. exact He.
  - intros [H | H]; [exists (File f) | exists (Special f)];
      (split; [exact H | left; reflexivity]).
Qed.

Lemma in_regular_files (f : string) (entries : list node) :
  In f (regular_files entries) <-> In (File f) entries.
Proof.
  unfold regular_files. rewrite in_flat_map. split.
  - intros (e & He & Hf). destruct e as [g | d sub | g]; simpl in Hf;
      try contradiction.
    destruct Hf as [-> | []]. exact He.
  - intros H. exists (File f). split; [exact H | left; reflexivity].
Qed.

Lemma isfile_in_true (entries : list node) (f : string) :
  isfile_in entries f = true <-> In (File f) entries.
Proof.
  unfold isfile_in. rewrite existsb_exists. split.
  - intros (e & He & Hf). destruct e as [g | d sub | g]; try discriminate.
    apply String.eqb_eq in Hf. subst. exact He.
  - intros H. exists (File f). split; [exact H | apply String.eqb_refl].
Qed.

Lemma same_name_same_node (entries : list node) (a b : node) :
  NoDup (os_listdir entries) ->
  In a entries -> In b entries -> node_name a = node_name b -> a = b.
Proof.
  unfold os_listdir. induction entries as [| e entries IH]; simpl;
    intros Hnd Ha Hb Hname; [contradiction |].
  inversion Hnd as [| ? ? Hnotin Hnd']; subst.
  destruct Ha as [-> | Ha], Hb as [-> | Hb].
  - reflexivity.
  - exfalso. apply Hnotin. rewrite Hname. apply in_map. exact Hb.
  - exfalso. apply Hnotin. rewrite <- Hname. apply in_map. exact Ha.
  - apply IH; assumption.
Qed.

Lemma listed_files (entries part : list node) :
  NoDup (os_listdir entries) -> incl part entries ->
  filter (fun filename => isfile_in entries filename && supported filename)
         (os_listdir part)
  = filter supported (regular_files part).
Proof.
  intros Hnd. induction part as [| e part IH]; intros Hincl; [reflexivity |].
  assert (Hpart : incl part entries)
    by (intros x Hx; apply Hincl; right; exact Hx).
  assert (He : In e entries) by (apply Hincl; left; reflexivity).
  assert (Hother : forall e', In e' entries -> e' <> File (node_name e') ->
                     isfile_in entries (node_name e') = false).
  { intros e' He' Hno. destruct (isfile_in entries (node_name e')) eqn:E;
      [| reflexivity].
    apply isfile_in_true in E. exfalso. apply Hno. symmetry.
    apply (same_name_same_node entries (File (node_name e')) e' Hnd E He').
    reflexivity. }
  destruct e as [f | d sub | f]; simpl.
  - assert (Hf : isfile_in entries f = true) by (apply isfile_in_true; exact He).
    rewrite Hf. simpl. fold (os_listdir part). fold (regular_files part).
    rewrite (IH Hpart). reflexivity.
  - assert (Hd : isfile_in entries _ = false)
      by (apply (Hother _ He); discriminate).
    simpl in Hd. rewrite Hd. simpl. fold (os_listdir part). apply IH.
    exact Hpart.
  - assert (Hd : isfile_in entries _ = false)
      by (apply (Hother _ He); discriminate).
    simpl in Hd. rewrite Hd. simpl. fold (os_listdir part). apply IH.
    exact Hpart.
Qed.

Lemma flat_map_flat_map {A B C} (g : B -> list C) (h : A -> list B)
    (l : list A) :
  flat_map g (flat_map h l) = flat_map (fun a => flat_map g (h a)) l.
Proof.
  induction l as [| a l IH]; simpl; [reflexivity |].
  rewrite flat_map_app, IH. reflexivity.
Qed.

(** Depth first: the supported files of the directory itself, sorted, and
    then the walk of each entry in turn. *)
Lemma found_walk_dir (top d : string) (entries : list node) :
  found_walk top (Dir d entries)
  = (map (os_path_join top) (filter supported (Py.sorted (walk_files entries)))
     ++ flat_map (fun e => found_walk (os_path_join top (node_name e)) e)
                 entries)%list.
Proof.
  unfold found_walk at 1. simpl. f_equal.
  rewrite flat_map_flat_map. reflexivity.
Qed.

(** Only a directory is walked. *)
Lemma found_walk_file (top f : string) : found_walk top (File f) = [].
Proof. reflexivity. Qed.

Lemma found_walk_special (top f : string) : found_walk top (Special f) = [].
Proof. reflexivity. Qed.

Lemma in_found_walk (n : node) :
  forall top p,
    In p (found_walk top n)
    <-> match n with
        | File _ => False
        | Special _ => False
        | Dir _ entries => found_under top entries p
        end.
Proof.
  induction n as [f | d entries IH | f] using node_forall_ind; intros top p.
  - rewrite found_walk_file. simpl. tauto.
  - rewrite Forall_forall in IH.
    rewrite found_walk_dir, in_app_iff, in_map_iff, in_flat_map. split.
    + intros [(f & <- & Hf) | (e & He & Hp)].
      * apply filter_In in Hf. destruct Hf as [Hf Hs].
        apply (Permutation_in _ (sorted_perm _)) in Hf.
        apply found_here; assumption.
      * apply (IH e He) in Hp.
        destruct e as [f | d' sub | f]; try contradiction.
        eapply found_below; [exact He | exact Hp].
    + intros H. inversion H as [? ? f Hf Hs | ? ? d' sub ? Hd Hsub]; subst.
      * left. exists f. split; [reflexivity |].
        apply filter_In. split; [| exact Hs].
        apply (Permutation_in _ (Permutation_sym (sorted_perm _))).
        exact Hf.
      * right. exists (Dir d' sub). split; [exact Hd |].
        apply (IH _ Hd). exact Hsub.
  - rewrite found_walk_special. simpl. tauto.
Qed.

(** The walk of the entries of a directory is the walk of its
    subdirectories, in the order in which the directory lists them. *)
Lemma found_walk_subdirectories (top : string) (entries : list node) :
  flat_map (fun e => found_walk (os_path_join top (node_name e)) e) entries
  = flat_map (fun sub => found_walk (os_path_join top (fst sub))
                                    (Dir (fst sub) (snd sub)))
             (subdirectories entries).
Proof.
  induction entries as [| e entries IH]; [reflexivity |].
  destruct e as [f | d sub | f]; unfold subdirectories;
    cbn [flat_map app node_name fst snd]; fold (subdirectories entries);
    rewrite IH; reflexivity.
Qed.

(** C9 (amended).  For a directory, the paths handed to [process_file] are:
    without recursion, the supported regular files of the directory itself
    in sorted order of their names; with recursion, the supported entries of
    the directory that are no directories, in sorted order of their names,
    followed by the walk of each subdirectory in turn, in the order in which
    the directory lists its subdirectories (depth first, the subdirectories
    not sorted).  The walk reaches exactly the supported entries below the
    directory that are no directories. *)
Theorem directory_enumeration (expanded_path d : string) (entries : list node) :
  (exists names,
      found_flat expanded_path entries = map (os_path_join expanded_path) names
      /\ sorted_names names
      /\ (forall f, In f names <-> In (File f) entries /\ supported f = true)
      /\ (NoDup (os_listdir entries) ->
          Permutation names (filter supported (regular_files entries))))
  /\ (exists names,
        found_walk expanded_path (Dir d entries)
        = (map (os_path_join expanded_path) names
           ++ flat_map (fun sub => found_walk
                                     (os_path_join expanded_path (fst sub))
                                     (Dir (fst sub) (snd sub)))
                       (subdirectories entries))%list
        /\ sorted_names names
        /\ Permutation names (filter supported (walk_files entries)))
  /\ (forall p,
        In p (found_walk expanded_path (Dir d entries))
        <-> found_under expanded_path entries p).
Proof.
  split; [| split].
  - eexists. split; [reflexivity |]. split; [| split].
    + apply filter_sorted, sorted_sorted.
    + intros f. rewrite filter_In, andb_true_iff, isfile_in_true. split.
      * tauto.
      * intros [Hf Hs]. split; [| tauto].
        apply (Permutation_in _ (Permutation_sym (sorted_perm _))).
        unfold os_listdir. apply (in_map node_name _ _ Hf).
    + intros Hnd. rewrite (filter_perm _ _ _ (sorted_perm _)).
      rewrite (listed_files entries entries Hnd (incl_refl _)). reflexivity.
  - eexists. split; [| split].
    + rewrite found_walk_dir, found_walk_subdirectories. reflexivity.
    + apply filter_sorted, sorted_sorted.
    + apply filter_perm, sorted_perm.
  - intros p. apply (in_found_walk (Dir d entries)).
Qed.

(* ================================================================== *)
(** * Further properties of the script *)
(* ================================================================== *)

(** ** The resolver *)

Section ResolverMore.

Context {W Client : Type}.

Implicit Types (p : provider W Client) (providers : list (provider W Client)).
Implicit Types (st : state W) (artist track : string).

(** X1.  Whatever the adapters do, the resolver returns normally, and its
    result is [None] or a non-empty string: an empty string never leaves
    [get_genre]. *)
Theorem get_genre_result_none_or_non_empty providers artist track st :
  exists result st1,
    get_genre providers artist track st = (Ret result, st1)
    /\ result <> Some EmptyString
    /\ (result = None \/ exists g, result = Some g /\ g <> EmptyString).
Proof.
  destruct (get_genre_returns providers artist track st)
    as (result & st1 & Heq & Hres).
  exists result, st1. split; [exact Heq |].
  destruct Hres as [-> | Htruthy].
  - split; [discriminate | left; reflexivity].
  - destruct result as [g |]; [| discriminate].
    assert (Hg : g <> EmptyString).
    { intros ->. discriminate. }
    split; [intros H; inversion H; contradiction |].
    right. exists g. split; [reflexivity | exact Hg].
Qed.

Lemma get_genre_trace providers artist track :
  forall st, exists k,
    k <= List.length providers
    /\ trace (snd (get_genre providers artist track st))
       = (trace st
          ++ map (fun p => EvInvoke (name p) artist track) (firstn k providers))%list
    /\ (fst (get_genre providers artist track st) = Ret None ->
        k = List.length providers).
Proof.
  induction providers as [| p providers IH]; intros st.
  - exists 0. simpl. rewrite app_nil_r. auto.
  - simpl. destruct (invoke p artist track st) as [o st1] eqn:Hcall.
    pose proof (invoke_trace _ _ _ _ _ _ Hcall) as Htr.
    assert (Hnext : exists k,
               k <= List.length (p :: providers)
               /\ trace (snd (get_genre providers artist track st1))
                  = (trace st ++ map (fun p => EvInvoke (name p) artist track)
                                     (firstn k (p :: providers)))%list
               /\ (fst (get_genre providers artist track st1) = Ret None ->
                   k = List.length (p :: providers))).
    { destruct (IH st1) as (k & Hk & Hkt & Hnone).
      exists (S k). simpl. split; [lia |]. split.
      - rewrite Hkt, Htr, <- app_assoc. reflexivity.
      - intros H. rewrite (Hnone H). reflexivity. }
    destruct o as [result | e]; [| exact Hnext].
    destruct (Py.truthy result) eqn:Hres; [| exact Hnext].
    exists 1. simpl. split; [lia |]. split.
    + rewrite Htr. reflexivity.
    + intros H. inversion H; subst. discriminate.
Qed.

(** X2.  The only external calls of the resolver are adapter invocations,
    all with the artist and title it was given: it invokes a leading
    segment of the provider list, each provider once and in list order, and
    the whole list whenever it returns [None]. *)
Theorem get_genre_invokes_leading_providers providers artist track st :
  exists k,
    k <= List.length providers
    /\ trace (snd (get_genre providers artist track st))
       = (trace st
          ++ map (fun p => EvInvoke (name p) artist track) (firstn k providers))%list
    /\ (fst (get_genre providers artist track st) = Ret None ->
        k = List.length providers).
Proof. apply get_genre_trace. Qed.

End ResolverMore.

(** ** The catalog-search adapter *)

Section SpotifyMore.

Context {W : Type} (host : Host W).

Implicit Types (sp : spotify_client W) (st : state W) (artist track : string).

Lemma retry_after_of_raises headers e :
  retry_after_of host headers = Exc e -> e = ValueError.
Proof.
  unfold retry_after_of. destruct (dict_get headers "Retry-After") as [v |];
    [| discriminate].
  destruct (py_int host v); [discriminate |].
  intros H. inversion H. reflexivity.
Qed.

(** A sleep that returns was for a non-negative time; a sleep that raises
    leaves the trace as it was, and raises what the conversion of the time
    raised, [ValueError], or what the sleep proper raised. *)
Lemma sleep_outcome secs st o st1 :
  sleep host secs st = (o, st1) ->
  match o with
  | Ret _ => (0 <= secs)%Z
  | Exc e =>
      trace st1 = trace st
      /\ (e = ValueError
          \/ time_convert host secs = Exc e
          \/ ((0 <= secs)%Z /\ fst (time_sleep host secs (world st)) = Exc e))
  end.
Proof.
  unfold sleep. destruct (time_convert host secs) as [[] | e'] eqn:Hconv.
  - destruct (secs <? 0)%Z eqn:Hneg.
    + intros H. inversion H; subst. split; [reflexivity | left; reflexivity].
    + apply Z.ltb_ge in Hneg.
      destruct (time_sleep host secs (world st)) as [[[] | e] w']; intros H;
        inversion H; subst; [exact Hneg |].
      split; [reflexivity | right; right; split; [exact Hneg | reflexivity]].
  - intros H. inversion H; subst.
    split; [reflexivity | right; left; reflexivity].
Qed.

(** X3.  The error firewall of the catalog adapter has one gap.  In a run
    that stays within the recursion limit, [get_genre_spotify] either
    returns [None] or the join of the title-cased names of a non-empty genre
    list, or it raises out of its rate-limit handler: every exception of the
    lookup itself is swallowed, and an exception that escapes is the
    [ValueError] of a [Retry-After] value that [int] rejects or of a negative
    sleeping time, or an exception of [time.sleep]: the one of the
    conversion of the time ([OverflowError] for a number too large) or one
    that the sleep proper raised for a non-negative time. *)
Theorem get_genre_spotify_outcome fuel sp artist track :
  forall st,
    match get_genre_spotify host fuel sp artist track st with
    | None => True
    | Some (Ret result, _) => genre_list_string result
    | Some (Exc e, _) =>
        e = ValueError
        \/ (exists secs, time_convert host secs = Exc e)
        \/ (exists secs w,
               (0 <= secs)%Z /\ fst (time_sleep host secs w) = Exc e)
    end.
Proof.
  induction fuel as [| fuel IH]; intros st; simpl; [exact I |].
  destruct (spotify_try sp artist track st) as [[result | e] st1] eqn:Htry.
  - exact (spotify_try_result _ _ _ _ _ _ Htry).
  - destruct e as [status headers | | | |]; try (left; reflexivity).
    destruct (status =? 429)%Z; [| left; reflexivity].
    destruct (retry_after_of host headers) as [secs | e] eqn:Hra.
    + destruct (sleep host secs st1) as [[[] | e] st2] eqn:Hsl.
      * apply IH.
      * apply sleep_outcome in Hsl. destruct Hsl as [_ [He | [He | He]]].
        -- left. exact He.
        -- right. left. exists secs. exact He.
        -- right. right. exists secs, (world st1). exact He.
    + left. exact (retry_after_of_raises _ _ Hra).
Qed.

(** X4.  Whenever [get_genre_spotify] comes back, it has searched the
    catalog once more than it has slept, always with the same query, and
    every sleep it made was for a non-negative time. *)
Theorem get_genre_spotify_searches_and_sleeps fuel sp artist track :
  forall st,
    match get_genre_spotify host fuel sp artist track st with
    | None => True
    | Some (_, st1) =>
        exists slept,
          sleeps (trace st1) = (sleeps (trace st) ++ slept)%list
          /\ Forall (fun secs => (0 <= secs)%Z) slept
          /\ searches (trace st1)
             = (searches (trace st)
                ++ repeat ("artist:" ++ artist ++ " track:" ++ track)%string
                          (S (List.length slept)))%list
    end.
Proof.
  induction fuel as [| fuel IH]; intros st; simpl; [exact I |].
  destruct (spotify_try sp artist track st) as [o st1] eqn:Htry.
  destruct (spotify_try_trace _ _ _ _ _ _ Htry) as [Hs Hq].
  assert (Hdone : exists slept,
             sleeps (trace st1) = (sleeps (trace st) ++ slept)%list
             /\ Forall (fun secs => (0 <= secs)%Z) slept
             /\ searches (trace st1)
                = (searches (trace st)
                   ++ repeat ("artist:" ++ artist ++ " track:" ++ track)%string
                             (S (List.length slept)))%list).
  { exists []. rewrite app_nil_r. split; [exact Hs |]. split; [constructor |].
    exact Hq. }
  destruct o as [result | e]; [exact Hdone |].
  destruct e as [status headers | | | |]; try exact Hdone.
  destruct (status =? 429)%Z; [| exact Hdone].
  destruct (retry_after_of host headers) as [secs | e]; [| exact Hdone].
  destruct (sleep host secs st1) as [[[] | e] st2] eqn:Hsl.
  - pose proof (sleep_outcome _ _ _ _ Hsl) as Hsecs. simpl in Hsecs.
    destruct (sleep_trace _ _ _ _ Hsl) as [Hs2 Hq2].
    specialize (IH st2).
    destruct (get_genre_spotify host fuel sp artist track st2)
      as [[o' st3] |]; [| exact I].
    destruct IH as (slept & Hs3 & Hall & Hq3).
    exists (secs :: slept). split; [| split].
    + rewrite Hs3, Hs2, Hs, <- app_assoc. reflexivity.
    + constructor; assumption.
    + rewrite Hq3, Hq2, Hq, <- app_assoc. reflexivity.
  - destruct (sleep_outcome _ _ _ _ Hsl) as [Hsame _]. rewrite Hsame.
    exact Hdone.
Qed.

End SpotifyMore.

(** ** Whitespace and title case *)

Lemma space_to_upper (c : ascii) : Py.is_space (Py.to_upper c) = Py.is_space c.
Proof. destruct c as [[] [] [] [] [] [] [] []]; reflexivity. Qed.

Lemma space_to_lower (c : ascii) : Py.is_space (Py.to_lower c) = Py.is_space c.
Proof. destruct c as [[] [] [] [] [] [] [] []]; reflexivity. Qed.

Lemma title_from_empty (b : bool) (s : string) :
  Py.title_from b s = EmptyString -> s = EmptyString.
Proof.
  destruct s as [| c s]; [reflexivity |]. simpl.
  destruct (Py.is_lower c || Py.is_upper c); discriminate.
Qed.

Lemma title_from_head_space (b : bool) (c : ascii) (s : string) :
  match Py.title_from b (String c s) with
  | EmptyString => False
  | String c' _ => Py.is_space c' = Py.is_space c
  end.
Proof.
  simpl. destruct (Py.is_lower c || Py.is_upper c); [| reflexivity].
  destruct b; [apply space_to_lower | apply space_to_upper].
Qed.

Lemma title_from_step (b : bool) (c : ascii) (s : string) :
  Py.title_from b (String c s)
  = if Py.is_lower c || Py.is_upper c
    then String (if b then Py.to_lower c else Py.to_upper c)
                (Py.title_from true s)
    else String c (Py.title_from false s).
Proof. reflexivity. Qed.

Lemma rstrip_step (c : ascii) (s : string) :
  Py.rstrip (String c s)
  = match Py.rstrip s with
    | EmptyString => if Py.is_space c then EmptyString else String c EmptyString
    | r => String c r
    end.
Proof. reflexivity. Qed.

Lemma rstrip_title_from (s : string) :
  forall b, Py.rstrip (Py.title_from b s) = Py.title_from b (Py.rstrip s).
Proof.
  induction s as [| c s IH]; intros b; [reflexivity |].
  pose proof (title_from_head_space b c EmptyString) as Hsp.
  rewrite title_from_step in Hsp.
  rewrite rstrip_step, (title_from_step b c s).
  destruct (Py.rstrip s) as [| d r] eqn:Hr.
  - destruct (Py.is_lower c || Py.is_upper c) eqn:Hc;
      rewrite rstrip_step, IH; simpl Py.title_from at 1; rewrite Hsp;
      destruct (Py.is_space c); try reflexivity;
      rewrite title_from_step, Hc; reflexivity.
  - rewrite (title_from_step b c (String d r)).
    destruct (Py.is_lower c || Py.is_upper c); rewrite rstrip_step, IH;
      match goal with
      | |- context [Py.title_from ?b' (String d r)] =>
          destruct (Py.title_from b' (String d r)) eqn:Ht;
          [apply title_from_empty in Ht; discriminate | reflexivity]
      end.
Qed.

Lemma lstrip_fixed (s : string) :
  Py.lstrip s = s
  <-> match s with
      | EmptyString => True
      | String c _ => Py.is_space c = false
      end.
Proof.
  destruct s as [| c s]; simpl; [tauto |].
  destruct (Py.is_space c) eqn:Hc; split; intros H; try reflexivity;
    try discriminate.
  exfalso. clear Hc. assert (Hlen : forall t, String.length (Py.lstrip t) <= String.length t).
  { induction t as [| d t IHt]; simpl; [lia |].
    destruct (Py.is_space d); simpl; lia. }
  pose proof (Hlen s) as Hl. rewrite H in Hl. simpl in Hl. lia.
Qed.

Lemma lstrip_lstrip (s : string) : Py.lstrip (Py.lstrip s) = Py.lstrip s.
Proof.
  induction s as [| c s IH]; simpl; [reflexivity |].
  destruct (Py.is_space c) eqn:Hc; [exact IH |].
  simpl. rewrite Hc. reflexivity.
Qed.

Lemma rstrip_rstrip (s : string) : Py.rstrip (Py.rstrip s) = Py.rstrip s.
Proof.
  induction s as [| c s IH]; simpl; [reflexivity |].
  destruct (Py.rstrip s) as [| d r] eqn:Hr.
  - destruct (Py.is_space c) eqn:Hc; simpl; [reflexivity |].
    rewrite Hc. reflexivity.
  - simpl in IH |- *. rewrite IH. reflexivity.
Qed.

Lemma lstrip_rstrip (s : string) :
  Py.lstrip s = s -> Py.lstrip (Py.rstrip s) = Py.rstrip s.
Proof.
  intros H. apply lstrip_fixed in H. apply lstrip_fixed.
  destruct s as [| c s]; simpl; [exact I |].
  destruct (Py.rstrip s); [rewrite H |]; exact H.
Qed.

Lemma lstrip_title_from (b : bool) (s : string) :
  Py.lstrip s = s -> Py.lstrip (Py.title_from b s) = Py.title_from b s.
Proof.
  intros H. apply lstrip_fixed in H. apply lstrip_fixed.
  destruct s as [| c s]; [exact I |].
  pose proof (title_from_head_space b c s) as Hsp.
  destruct (Py.title_from b (String c s)); [contradiction |].
  rewrite Hsp. exact H.
Qed.

(** [strip] is idempotent, and [title] keeps a stripped string stripped. *)
Lemma strip_strip (s : string) : Py.strip (Py.strip s) = Py.strip s.
Proof.
  unfold Py.strip.
  rewrite (lstrip_rstrip _ (lstrip_lstrip s)). apply rstrip_rstrip.
Qed.

Lemma strip_title_strip (s : string) :
  Py.strip (Py.title (Py.strip s)) = Py.title (Py.strip s).
Proof.
  unfold Py.strip at 1. unfold Py.title.
  rewrite lstrip_title_from.
  - rewrite rstrip_title_from. f_equal. unfold Py.strip. apply rstrip_rstrip.
  - unfold Py.strip. apply lstrip_rstrip, lstrip_lstrip.
Qed.

(** ** ASCII strings

    The methods keep ASCII strings inside ASCII. *)

Lemma isascii_app (a b : string) :
  Py.isascii (a ++ b) = Py.isascii a && Py.isascii b.
Proof.
  induction a as [| c a IH]; simpl; [reflexivity |].
  rewrite IH, andb_assoc. reflexivity.
Qed.

Lemma isascii_to_upper (c : ascii) :
  (nat_of_ascii (Py.to_upper c) <? 128) = (nat_of_ascii c <? 128).
Proof. destruct c as [[] [] [] [] [] [] [] []]; reflexivity. Qed.

Lemma isascii_to_lower (c : ascii) :
  (nat_of_ascii (Py.to_lower c) <? 128) = (nat_of_ascii c <? 128).
Proof. destruct c as [[] [] [] [] [] [] [] []]; reflexivity. Qed.

Lemma isascii_title_from (s : string) :
  forall b, Py.isascii (Py.title_from b s) = Py.isascii s.
Proof.
  induction s as [| c s IH]; intros b; [reflexivity |].
  rewrite title_from_step.
  destruct (Py.is_lower c || Py.is_upper c); cbn [Py.isascii]; rewrite IH;
    [| reflexivity].
  destruct b; [rewrite isascii_to_lower | rewrite isascii_to_upper];
    reflexivity.
Qed.

Lemma isascii_lstrip (s : string) :
  Py.isascii s = true -> Py.isascii (Py.lstrip s) = true.
Proof.
  induction s as [| c s IH]; simpl; [reflexivity |].
  intros H. destruct (Py.is_space c); [| exact H].
  apply andb_true_iff in H. apply IH. tauto.
Qed.

Lemma isascii_rstrip (s : string) :
  Py.isascii s = true -> Py.isascii (Py.rstrip s) = true.
Proof.
  induction s as [| c s IH]; [reflexivity |].
  cbn [Py.isascii]. intros H. apply andb_true_iff in H.
  destruct H as [Hc Hs]. specialize (IH Hs). rewrite rstrip_step.
  destruct (Py.rstrip s) as [| d r].
  - destruct (Py.is_space c); [reflexivity |].
    cbn [Py.isascii]. rewrite Hc. reflexivity.
  - change (Py.isascii (String c (String d r)))
      with ((nat_of_ascii c <? 128) && Py.isascii (String d r)).
    rewrite Hc, IH. reflexivity.
Qed.

Lemma isascii_strip_title (i : string) :
  Py.isascii i = true -> Py.isascii (Py.title (Py.strip i)) = true.
Proof.
  intros H. unfold Py.title, Py.strip. rewrite isascii_title_from.
  apply isascii_rstrip, isascii_lstrip, H.
Qed.

Lemma isascii_join (l : list string) :
  forallb Py.isascii l = true -> Py.isascii (Py.join ", " l) = true.
Proof.
  unfold Py.join. induction l as [| x l IH]; [reflexivity |].
  cbn [forallb]. intros H. apply andb_true_iff in H. destruct H as [Hx Hl].
  destruct l as [| y l]; [exact Hx |].
  change (String.concat ", " (x :: y :: l))
    with (x ++ ", " ++ String.concat ", " (y :: l))%string.
  rewrite !isascii_app, Hx, (IH Hl). reflexivity.
Qed.

Lemma isascii_join_titles (genres : list string) :
  forallb Py.isascii genres = true -> Py.isascii (join_titles genres) = true.
Proof.
  intros H. unfold join_titles. apply isascii_join.
  rewrite forallb_forall in *. intros g Hg. apply in_map_iff in Hg.
  destruct Hg as (i & <- & Hi). unfold Py.title.
  rewrite isascii_title_from. apply H, Hi.
Qed.

Lemma isascii_re_split (sep : ascii -> bool) (s : string) :
  Py.isascii s = true -> forallb Py.isascii (Py.re_split sep s) = true.
Proof.
  induction s as [| c s IH]; [reflexivity |].
  cbn [Py.isascii]. intros H. apply andb_true_iff in H.
  destruct H as [Hc Hs]. specialize (IH Hs). cbn [Py.re_split].
  destruct (Py.re_split sep s) as [| piece pieces].
  - destruct (sep c); cbn [forallb Py.isascii]; [reflexivity |].
    rewrite Hc. reflexivity.
  - cbn [forallb] in IH. apply andb_true_iff in IH. destruct IH as [Hp Hps].
    destruct (sep c); cbn [forallb Py.isascii]; rewrite ?Hc, Hp, Hps;
      reflexivity.
Qed.

Lemma forallb_filter {A} (f g : A -> bool) (l : list A) :
  forallb f l = true -> forallb f (filter g l) = true.
Proof.
  rewrite !forallb_forall. intros H x Hx. apply filter_In in Hx.
  apply H. tauto.
Qed.

(** ** The other adapters *)

Section AdaptersMore.

Context {W : Type} (host : Host W).

(** The row that decides: the string the rows yield is built from the
    items of the cell of one of them. *)
Lemma wiki_rows_genre_row (rows : list wiki_tr) (s : string) :
  wiki_rows_genre rows = Some s ->
  exists tr td,
    In tr rows /\ tr_td tr = Some td
    /\ s = join_titles
             (map Py.strip
                (filter (fun i => negb (String.eqb (Py.strip i) ""))
                        (match td_lis td with
                         | [] => Py.re_split bar_or_comma (td_text td)
                         | lis => lis
                         end))).
Proof.
  induction rows as [| tr rows IH]; simpl; [discriminate |].
  assert (Hlater : wiki_rows_genre rows = Some s ->
                   exists tr0 td,
                     (tr = tr0 \/ In tr0 rows) /\ tr_td tr0 = Some td
                     /\ s = join_titles
                              (map Py.strip
                                 (filter (fun i => negb (String.eqb (Py.strip i) ""))
                                         (match td_lis td with
                                          | [] => Py.re_split bar_or_comma
                                                    (td_text td)
                                          | lis => lis
                                          end)))).
  { intros H. destruct (IH H) as (tr0 & td & Hin & Htd & Hs).
    exists tr0, td. tauto. }
  destruct (tr_th tr) as [th |]; [| exact Hlater].
  destruct (Py.contains "genre" (Py.lower th)); [| exact Hlater].
  destruct (tr_td tr) as [td |] eqn:Htd; [| discriminate].
  intros H. inversion H; subst; clear H.
  exists tr, td. split; [left; reflexivity |]. split; [exact Htd |].
  unfold join_titles. rewrite map_map. reflexivity.
Qed.

Lemma row_items_isascii (rows : list wiki_tr) (tr : wiki_tr) (td : wiki_td) :
  forallb row_isascii rows = true -> In tr rows -> tr_td tr = Some td ->
  forallb Py.isascii
    (map Py.strip
       (filter (fun i => negb (String.eqb (Py.strip i) ""))
               (match td_lis td with
                | [] => Py.re_split bar_or_comma (td_text td)
                | lis => lis
                end))) = true.
Proof.
  intros Hrows Hin Htd. rewrite forallb_forall in Hrows.
  specialize (Hrows tr Hin). unfold row_isascii in Hrows. rewrite Htd in Hrows.
  apply andb_true_iff in Hrows. destruct Hrows as [Hlis Htext].
  assert (Hitems : forallb Py.isascii
                     (match td_lis td with
                      | [] => Py.re_split bar_or_comma (td_text td)
                      | lis => lis
                      end) = true).
  { destruct (td_lis td); [apply isascii_re_split; exact Htext | exact Hlis]. }
  apply (forallb_filter _ (fun i => negb (String.eqb (Py.strip i) ""))) in Hitems.
  rewrite forallb_forall in *. intros g Hg. apply in_map_iff in Hg.
  destruct Hg as (i & <- & Hi). unfold Py.strip.
  apply isascii_rstrip, isascii_lstrip, Hitems, Hi.
Qed.

(** What the encyclopedia adapter returns comes from the rows of an
    infobox that the parser gave. *)
Lemma fetch_wiki_genre_rows query w result w1 :
  _fetch_wiki_genre host query w = (Ret result, w1) ->
  result = None
  \/ exists html rows,
       soup_infobox host html = Ret (Some rows)
       /\ result = wiki_rows_genre rows.
Proof.
  unfold _fetch_wiki_genre.
  destruct (wikipedia_search host query w) as [[[| title search] | e] wa];
    try (intros H; inversion H; left; reflexivity).
  destruct (requests_get host _ wa) as [[res | e] wb];
    try (intros H; inversion H; left; reflexivity).
  destruct (negb (status_code res =? 200)%Z);
    [intros H; inversion H; left; reflexivity |].
  destruct (soup_infobox host (text res)) as [[infobox |] | e] eqn:Hsoup;
    intros H; inversion H; subst; [right | left | left]; try reflexivity.
  exists (text res), infobox. split; [exact Hsoup | reflexivity].
Qed.

Lemma fetch_wiki_genre_title_case query w :
  exists result w1,
    _fetch_wiki_genre host query w = (Ret result, w1)
    /\ ((forall html rows,
            soup_infobox host html = Ret (Some rows) ->
            forallb row_isascii rows = true) ->
        forall s, result = Some s ->
                  Py.isascii s = true /\ Py.title s = s).
Proof.
  destruct (fetch_wiki_genre_returns host query w) as (result & w1 & Heq).
  exists result, w1. split; [exact Heq |]. intros Hascii s ->.
  destruct (fetch_wiki_genre_rows _ _ _ _ Heq)
    as [H | (html & rows & Hsoup & H)]; [discriminate |].
  symmetry in H.
  destruct (wiki_rows_genre_row _ _ H) as (tr & td & Hin & Htd & ->).
  split; [| apply join_titles_title_case].
  apply isascii_join_titles.
  apply (row_items_isascii rows tr td (Hascii _ _ Hsoup) Hin Htd).
Qed.

(** X5.  The four adapters that need no retry are error firewalls with a
    normalised output: the social-tagging, release-database and the two
    encyclopedia adapters never raise, and when the names that the source
    supplies (the top tags; the genres and styles of the first release; the
    cell texts of the infobox rows) are ASCII strings, a string they return
    is an ASCII string in title case, that is, [title()] leaves it
    unchanged. *)
Theorem adapters_never_raise_and_return_title_case
    (network : lastfm_network W) (d_client : discogs_client W)
    (artist track : string) (w : W) :
  (exists result w1,
      get_genre_lastfm network artist track w = (Ret result, w1)
      /\ forall tags,
           fst (lastfm_top_tags network artist track w) = Ret tags ->
           forallb Py.isascii tags = true ->
           forall s, result = Some s ->
                     Py.isascii s = true /\ Py.title s = s)
  /\ (exists result w1,
        get_genre_discogs d_client artist track w = (Ret result, w1)
        /\ forall release others,
             fst (discogs_page1 d_client (artist ++ " " ++ track) w)
             = Ret (release :: others) ->
             forallb Py.isascii (or_empty (release_genres release)
                                 ++ or_empty (release_styles release)) = true ->
             forall s, result = Some s ->
                       Py.isascii s = true /\ Py.title s = s)
  /\ (exists result w1,
        get_genre_wikipedia_track host tt artist track w = (Ret result, w1)
        /\ ((forall html rows,
                soup_infobox host html = Ret (Some rows) ->
                forallb row_isascii rows = true) ->
            forall s, result = Some s ->
                      Py.isascii s = true /\ Py.title s = s))
  /\ (exists result w1,
        get_genre_wikipedia_artist host tt artist track w = (Ret result, w1)
        /\ ((forall html rows,
                soup_infobox host html = Ret (Some rows) ->
                forallb row_isascii rows = true) ->
            forall s, result = Some s ->
                      Py.isascii s = true /\ Py.title s = s)).
Proof.
  split; [| split; [| split]].
  - destruct (get_genre_lastfm_result network artist track w)
      as (result & w1 & Heq & _).
    exists result, w1. split; [exact Heq |].
    intros tags Htags Hascii s ->. revert Heq. unfold get_genre_lastfm.
    destruct (lastfm_top_tags network artist track w) as [o wa].
    simpl in Htags. subst o.
    match goal with |- context [filter ?f tags] =>
      pose proof (forallb_filter Py.isascii f tags Hascii) as Hkept;
      destruct (filter f tags) as [| g genres] end;
      intros Heq; inversion Heq; subst.
    split; [apply isascii_join_titles; exact Hkept |
            apply join_titles_title_case].
  - destruct (get_genre_discogs_result d_client artist track w)
      as (result & w1 & Heq & _).
    exists result, w1. split; [exact Heq |].
    intros release others Hpage Hascii s ->. revert Heq.
    unfold get_genre_discogs.
    destruct (discogs_page1 d_client (artist ++ " " ++ track)%string w)
      as [o wa].
    simpl in Hpage. subst o. cbv zeta.
    destruct (or_empty (release_genres release)
              ++ or_empty (release_styles release))%list as [| g combined];
      intros Heq; inversion Heq; subst.
    split; [apply isascii_join_titles; exact Hascii |
            apply join_titles_title_case].
  - apply fetch_wiki_genre_title_case.
  - apply fetch_wiki_genre_title_case.
Qed.

Lemma filter_filter {A} (f : A -> bool) (l : list A) :
  filter f (filter f l) = filter f l.
Proof.
  induction l as [| x l IH]; simpl; [reflexivity |].
  destruct (f x) eqn:Hx; simpl; [rewrite Hx, IH |]; [reflexivity | exact IH].
Qed.

Lemma get_genre_lastfm_of_tags (network : lastfm_network W) artist track w
    top_tags w1 :
  lastfm_top_tags network artist track w = (Ret top_tags, w1) ->
  get_genre_lastfm network artist track w
  = (Ret (match filter (fun t => negb (lastfm_skipped t)) top_tags with
          | [] => None
          | kept => Some (join_titles kept)
          end), w1).
Proof.
  intros H. unfold get_genre_lastfm. rewrite H.
  change (fun name => negb (existsb (String.eqb (Py.lower name)) lastfm_skip))
    with (fun t => negb (lastfm_skipped t)).
  destruct (filter (fun t => negb (lastfm_skipped t)) top_tags); reflexivity.
Qed.

(** X6.  Tags of the stoplist, in whatever letter case, have no influence
    on the answer of the social-tagging adapter: two tag lists that agree
    once their stoplisted tags are removed give the same result, and a list
    made of stoplisted tags only gives [None]. *)
Theorem get_genre_lastfm_ignores_stoplist
    (network network' : lastfm_network W) artist track w w1 tags tags' :
  lastfm_top_tags network artist track w = (Ret tags, w1) ->
  lastfm_top_tags network' artist track w = (Ret tags', w1) ->
  filter (fun t => negb (lastfm_skipped t)) tags
  = filter (fun t => negb (lastfm_skipped t)) tags' ->
  get_genre_lastfm network artist track w
  = get_genre_lastfm network' artist track w
  /\ (forallb lastfm_skipped tags = true ->
      get_genre_lastfm network artist track w = (Ret None, w1)).
Proof.
  intros H H' Hsame. split.
  - rewrite (get_genre_lastfm_of_tags _ _ _ _ _ _ H).
    rewrite (get_genre_lastfm_of_tags _ _ _ _ _ _ H'). rewrite Hsame.
    reflexivity.
  - intros Hall. rewrite (get_genre_lastfm_of_tags _ _ _ _ _ _ H).
    assert (Hnone : filter (fun t => negb (lastfm_skipped t)) tags = []).
    { clear H Hsame. induction tags as [| t tags IH]; [reflexivity |].
      simpl in Hall |- *. apply andb_true_iff in Hall. destruct Hall as [Ht Hr].
      rewrite Ht. simpl. apply IH. exact Hr. }
    rewrite Hnone. reflexivity.
Qed.

(** X7.  When the encyclopedia rows, with cell texts that are ASCII
    strings, yield a string, it is the join, with a comma and a blank, of
    terms that are each non-empty, free of leading and trailing white space,
    in title case and ASCII. *)
Theorem wiki_rows_genre_terms (rows : list wiki_tr) (s : string) :
  forallb row_isascii rows = true ->
  wiki_rows_genre rows = Some s ->
  exists terms,
    s = Py.join ", " terms
    /\ Forall (fun g => g <> EmptyString
                        /\ Py.strip g = g
                        /\ Py.title g = g
                        /\ Py.isascii g = true) terms.
Proof.
  intros Hascii H.
  destruct (wiki_rows_genre_row _ _ H) as (tr & td & Hin & Htd & ->).
  pose proof (row_items_isascii rows tr td Hascii Hin Htd) as Hrow.
  set (items := filter (fun i => negb (String.eqb (Py.strip i) ""))
                       (match td_lis td with
                        | [] => Py.re_split bar_or_comma (td_text td)
                        | lis => lis
                        end)) in *.
  exists (map Py.title (map Py.strip items)). split; [reflexivity |].
  rewrite forallb_forall in Hrow.
  rewrite map_map. apply Forall_forall. intros g Hg.
  apply in_map_iff in Hg. destruct Hg as (i & <- & Hi).
  assert (Hkept : Py.strip i <> EmptyString).
  { apply filter_In in Hi. destruct Hi as [_ Hi].
    apply negb_true_iff, String.eqb_neq in Hi. exact Hi. }
  split; [| split; [| split]].
  - intros H0. apply title_from_empty in H0. contradiction.
  - apply strip_title_strip.
  - apply title_from_idempotent.
  - unfold Py.title. rewrite isascii_title_from.
    apply Hrow. apply in_map. exact Hi.
Qed.

(** X8.  The first row whose header contains "genre" decides alone: the
    rows before it do not matter, the rows after it are not looked at, and
    if that row has no cell the answer is [None] whatever follows. *)
Theorem wiki_first_genre_row_decides (before after : list wiki_tr)
    (tr : wiki_tr) :
  forallb (fun r => negb (genre_row r)) before = true ->
  genre_row tr = true ->
  wiki_rows_genre (before ++ tr :: after) = wiki_rows_genre [tr]
  /\ (tr_td tr = None -> wiki_rows_genre (before ++ tr :: after) = None).
Proof.
  intros Hbefore Htr.
  assert (Hskip : wiki_rows_genre (before ++ tr :: after)
                  = wiki_rows_genre (tr :: after)).
  { induction before as [| r before IH]; [reflexivity |].
    simpl in Hbefore. apply andb_true_iff in Hbefore.
    destruct Hbefore as [Hr Hrest]. apply negb_true_iff in Hr.
    unfold genre_row in Hr. simpl.
    destruct (tr_th r) as [th |]; [rewrite Hr |]; apply IH; exact Hrest. }
  assert (Hone : wiki_rows_genre (tr :: after) = wiki_rows_genre [tr]).
  { unfold genre_row in Htr. simpl.
    destruct (tr_th tr) as [th |]; [| discriminate]. rewrite Htr.
    reflexivity. }
  split; [rewrite Hskip; exact Hone |].
  intros Htd. rewrite Hskip, Hone. unfold genre_row in Htr. simpl.
  destruct (tr_th tr) as [th |]; [| discriminate]. rewrite Htr, Htd.
  reflexivity.
Qed.

End AdaptersMore.

(** ** Reading and writing tags *)

Lemma saves_app (t1 t2 : list event) :
  saves (t1 ++ t2) = (saves t1 ++ saves t2)%list.
Proof. unfold saves. apply flat_map_app. Qed.

Lemma opened_app (t1 t2 : list event) :
  opened (t1 ++ t2) = (opened t1 ++ opened t2)%list.
Proof. unfold opened. apply flat_map_app. Qed.

Lemma dict_get_filter_other {V} (d : list (string * V)) (k k' : string) :
  k' <> k ->
  dict_get (filter (fun kv => negb (String.eqb (fst kv) k)) d) k'
  = dict_get d k'.
Proof.
  intros Hne. induction d as [| [k0 v0] d IH]; [reflexivity |]. simpl.
  destruct (String.eqb k0 k) eqn:E0; simpl.
  - apply String.eqb_eq in E0. subst k0.
    assert (E : String.eqb k k' = false)
      by (apply String.eqb_neq; intros H; apply Hne; symmetry; exact H).
    rewrite E. exact IH.
  - destruct (String.eqb k0 k'); [reflexivity | exact IH].
Qed.

Lemma audiofile_get_set_same (a : audiofile) (k v : string) :
  audiofile_get (audiofile_set a k v) k = [Some v].
Proof. unfold audiofile_get, audiofile_set. simpl. rewrite String.eqb_refl. reflexivity. Qed.

Lemma audiofile_get_set_other (a : audiofile) (k v k' : string) :
  k' <> k -> audiofile_get (audiofile_set a k v) k' = audiofile_get a k'.
Proof.
  intros Hne. unfold audiofile_get, audiofile_set. simpl.
  assert (E : String.eqb k k' = false)
    by (apply String.eqb_neq; intros H; apply Hne; symmetry; exact H).
  rewrite E, dict_get_filter_other by exact Hne. reflexivity.
Qed.

Section TagsMore.

Context {W Client : Type} (host : Host W).

Implicit Types (providers : list (provider W Client)) (st : state W).
Implicit Types (file_path : string) (a : audiofile).

(** What [read_fields] makes of the four value lists. *)
Lemma read_fields_spec file_path a st :
  let keys := tags_read file_path in
  read_fields file_path a st
  = match audiofile_get a (nth 0 keys EmptyString),
          audiofile_get a (nth 1 keys EmptyString),
          audiofile_get a (nth 2 keys EmptyString),
          audiofile_get a (nth 3 keys EmptyString) with
    | artist :: _, title :: _, comments :: _, genre :: _ =>
        (Ret (artist, title, comments, genre), st)
    | _, _, _, _ => (Exc IndexError, st)
    end.
Proof.
  unfold tags_read, read_fields, bind, subscript0, raise, ret.
  destruct (is_flac file_path); simpl;
    repeat match goal with
           | |- context [audiofile_get a ?k] =>
               destruct (audiofile_get a k) as [| ? ?]; simpl
           end; reflexivity.
Qed.

Lemma extract_metadata_opened file_path st a w1 :
  mutagen_File host file_path (world st) = (Ret (Some a), w1) ->
  let st1 := mkState w1 (trace st ++ [EvMutagenFile file_path])%list in
  extract_metadata host file_path st
  = match read_fields file_path a st1 with
    | (Ret (artist, title, comments, genre), _) =>
        if Py.truthy artist && Py.truthy title
        then (Ret (artist, title, comments, genre), st1)
        else (Ret no_metadata, st1)
    | (Exc _, _) => (Ret no_metadata, st1)
    end.
Proof.
  intros Hopen st1. unfold extract_metadata, bind, ext. rewrite Hopen.
  fold st1. rewrite read_fields_spec. cbv zeta.
  repeat match goal with
         | |- context [audiofile_get a ?k] =>
             destruct (audiofile_get a k) as [| ? ?]
         end; try reflexivity.
  match goal with
  | |- context [Py.truthy ?x && Py.truthy ?y] =>
      destruct (Py.truthy x && Py.truthy y)
  end; reflexivity.
Qed.

(** X9.  [extract_metadata] never raises and opens the file exactly once;
    what it returns is either the all-[None] tuple or a tuple whose artist
    and title are both non-empty strings. *)
Theorem extract_metadata_all_or_nothing file_path st :
  exists fields st1,
    extract_metadata host file_path st = (Ret fields, st1)
    /\ trace st1 = (trace st ++ [EvMutagenFile file_path])%list
    /\ (fields = no_metadata
        \/ exists artist title comments genre,
             fields = (Some artist, Some title, comments, genre)
             /\ artist <> EmptyString /\ title <> EmptyString).
Proof. apply extract_metadata_returns. Qed.

(** X10.  A tag that is present with an empty list of values breaks the
    extraction: if any of the four keys read from the file (artist, title,
    comment, genre, under the names of its format) holds an empty list, the
    result is the all-[None] tuple, even when artist and title are set. *)
Theorem extract_metadata_empty_value_list file_path st a w1 key :
  mutagen_File host file_path (world st) = (Ret (Some a), w1) ->
  In key (tags_read file_path) ->
  dict_get (tags a) key = Some [] ->
  fst (extract_metadata host file_path st) = Ret no_metadata.
Proof.
  intros Hopen Hkey Hempty.
  assert (Hget : audiofile_get a key = [])
    by (unfold audiofile_get; rewrite Hempty; reflexivity).
  rewrite (extract_metadata_opened _ _ _ _ Hopen). cbv zeta.
  rewrite read_fields_spec. cbv zeta.
  unfold tags_read in *. destruct (is_flac file_path); simpl in Hkey |- *;
    destruct Hkey as [<- | [<- | [<- | [<- | []]]]]; rewrite Hget;
    repeat match goal with
           | |- context [audiofile_get a ?k] =>
               destruct (audiofile_get a k) as [| ? ?]
           end; reflexivity.
Qed.

(** X11.  For a file that is not FLAC the genre is read under the key
    "TCON" while [update_genre] stores it under "genre": a file without
    "TCON" key still extracts without genre right after a genre was stored
    in it. *)
Theorem extract_metadata_misses_stored_genre file_path st a genre w1 :
  is_flac file_path = false ->
  dict_get (tags a) "TCON" = None ->
  mutagen_File host file_path (world st)
  = (Ret (Some (audiofile_set a "genre" genre)), w1) ->
  exists artist title comments,
    fst (extract_metadata host file_path st)
    = Ret (artist, title, comments, None).
Proof.
  intros Hflac Htcon Hopen.
  rewrite (extract_metadata_opened _ _ _ _ Hopen). cbv zeta.
  rewrite read_fields_spec. cbv zeta. unfold tags_read. rewrite Hflac.
  simpl nth.
  assert (Hg : audiofile_get (audiofile_set a "genre" genre) "TCON" = [None]).
  { rewrite audiofile_get_set_other by discriminate.
    unfold audiofile_get. rewrite Htcon. reflexivity. }
  rewrite Hg.
  repeat match goal with
         | |- context [audiofile_get ?x ?k] =>
             destruct (audiofile_get x k) as [| ? ?]
         end; try (exists None, None, None; reflexivity).
  match goal with
  | |- context [Py.truthy ?x && Py.truthy ?y] =>
      destruct (Py.truthy x && Py.truthy y)
  end; simpl; eexists _, _, _; reflexivity.
Qed.

(** X12.  For a FLAC file the stored genre is read back: once a non-empty
    genre was stored in a file with artist and title, processing the file
    again returns that genre, opens the file once, invokes no provider and
    saves nothing. *)
Theorem process_file_again_after_store
    providers file_path st a genre w1 artist title comments :
  is_flac file_path = true ->
  hd_error (audiofile_get a "artist") = Some (Some artist) ->
  hd_error (audiofile_get a "title") = Some (Some title) ->
  hd_error (audiofile_get a "comment") = Some comments ->
  artist <> EmptyString -> title <> EmptyString -> genre <> EmptyString ->
  mutagen_File host file_path (world st)
  = (Ret (Some (audiofile_set a "genre" genre)), w1) ->
  process_file host providers file_path st
  = (Ret (os_path_basename file_path, Some genre),
     mkState w1 (trace st ++ [EvMutagenFile file_path])%list).
Proof.
  intros Hflac Har Hti Hco Ha Ht Hg Hopen.
  unfold process_file, bind.
  rewrite (extract_metadata_opened _ _ _ _ Hopen). cbv zeta.
  rewrite read_fields_spec. cbv zeta. unfold tags_read. rewrite Hflac.
  simpl nth.
  rewrite audiofile_get_set_same.
  rewrite !audiofile_get_set_other by discriminate.
  destruct (audiofile_get a "artist") as [| x1 l1]; [discriminate |].
  destruct (audiofile_get a "title") as [| x2 l2]; [discriminate |].
  destruct (audiofile_get a "comment") as [| x3 l3]; [discriminate |].
  simpl in Har, Hti, Hco. inversion Har; inversion Hti; inversion Hco; subst.
  apply truthy_some in Ha, Ht, Hg. rewrite Ha, Ht. simpl andb. cbv iota beta.
  rewrite Ha, Ht, Hg. reflexivity.
Qed.

Lemma update_genre_effect file_path genre st :
  exists st1,
    update_genre host file_path genre st = (Ret tt, st1)
    /\ opened (trace st1) = (opened (trace st) ++ [file_path])%list
    /\ written_files (trace st1) = written_files (trace st)
    /\ match mutagen_File host file_path (world st) with
       | (Ret (Some a), w1) =>
           saves (trace st1) = (saves (trace st) ++ [(file_path, genre)])%list
           /\ world st1
              = snd (audiofile_save host file_path
                       (audiofile_set a "genre" genre) w1)
       | (_, w1) => saves (trace st1) = saves (trace st) /\ world st1 = w1
       end.
Proof.
  unfold update_genre, bind, ext.
  destruct (mutagen_File host file_path (world st)) as [[[a |] | e] w1]; simpl.
  - destruct (audiofile_save host file_path (audiofile_set a "genre" genre) w1)
      as [[[] | e] w2]; eexists; (split; [reflexivity |]); simpl;
      rewrite !opened_app, !saves_app, !written_files_app; simpl;
      rewrite !app_nil_r; auto.
  - eexists. split; [reflexivity |]. simpl.
    rewrite opened_app, saves_app, written_files_app. simpl.
    rewrite !app_nil_r. auto.
  - eexists. split; [reflexivity |]. simpl.
    rewrite opened_app, saves_app, written_files_app. simpl.
    rewrite !app_nil_r. auto.
Qed.

(** X13.  [update_genre] never raises and opens the file once.  When the
    file does not open it saves nothing; when it opens, it saves once, the
    opened tags with the key "genre" set to the new genre and every other
    key unchanged. *)
Theorem update_genre_saves_opened_file file_path genre st :
  exists st1,
    update_genre host file_path genre st = (Ret tt, st1)
    /\ opened (trace st1) = (opened (trace st) ++ [file_path])%list
    /\ match mutagen_File host file_path (world st) with
       | (Ret (Some a), w1) =>
           saves (trace st1) = (saves (trace st) ++ [(file_path, genre)])%list
           /\ world st1
              = snd (audiofile_save host file_path
                       (audiofile_set a "genre" genre) w1)
           /\ audiofile_get (audiofile_set a "genre" genre) "genre"
              = [Some genre]
           /\ (forall key, key <> "genre" ->
                 audiofile_get (audiofile_set a "genre" genre) key
                 = audiofile_get a key)
       | (_, w1) => saves (trace st1) = saves (trace st) /\ world st1 = w1
       end.
Proof.
  destruct (update_genre_effect file_path genre st)
    as (st1 & Heq & Hopened & _ & Hsaves).
  exists st1. split; [exact Heq |]. split; [exact Hopened |].
  destruct (mutagen_File host file_path (world st)) as [[[a |] | e] w1];
    try exact Hsaves.
  destruct Hsaves as [Hs Hw]. split; [exact Hs |]. split; [exact Hw |].
  split; [apply audiofile_get_set_same |].
  intros key Hkey. apply audiofile_get_set_other. exact Hkey.
Qed.

End TagsMore.

(** ** One file, and then all of them *)

Section ProcessMore.

Context {W Client : Type} (host : Host W).

Implicit Types (providers : list (provider W Client)) (st : state W).
Implicit Types (file_path : string).

Lemma invokes_silent (ps : list (provider W Client)) (artist track : string) :
  saves (map (fun p => EvInvoke (name p) artist track) ps) = []
  /\ written_files (map (fun p => EvInvoke (name p) artist track) ps) = []
  /\ opened (map (fun p => EvInvoke (name p) artist track) ps) = [].
Proof. induction ps as [| p ps IH]; simpl; auto. Qed.

Lemma get_genre_silent providers artist track st :
  saves (trace (snd (get_genre providers artist track st))) = saves (trace st)
  /\ written_files (trace (snd (get_genre providers artist track st)))
     = written_files (trace st)
  /\ opened (trace (snd (get_genre providers artist track st)))
     = opened (trace st).
Proof.
  destruct (get_genre_trace providers artist track st) as (k & _ & Htr & _).
  rewrite Htr, saves_app, written_files_app, opened_app.
  destruct (invokes_silent (firstn k providers) artist track) as (-> & -> & ->).
  rewrite !app_nil_r. auto.
Qed.

Lemma process_file_effect providers file_path st :
  exists genre st1,
    process_file host providers file_path st
    = (Ret (os_path_basename file_path, genre), st1)
    /\ genre <> Some EmptyString
    /\ written_files (trace st1) = written_files (trace st)
    /\ (saves (trace st1) = saves (trace st)
        \/ exists g, genre = Some g
                     /\ saves (trace st1)
                        = (saves (trace st) ++ [(file_path, g)])%list)
    /\ (genre = None -> saves (trace st1) = saves (trace st)).
Proof.
  unfold process_file, bind.
  destruct (extract_metadata_returns host file_path st)
    as (fields & sta & Heq & Htr & Hshape).
  assert (Hsa : saves (trace sta) = saves (trace st)
                /\ written_files (trace sta) = written_files (trace st)).
  { rewrite Htr, saves_app, written_files_app. simpl. rewrite !app_nil_r. auto. }
  destruct Hsa as [Hsa Hwa]. rewrite Heq.
  destruct Hshape as [-> | (artist & title & comments & genre & -> & Ha & Ht)].
  - exists None, sta. split; [reflexivity |]. split; [discriminate |]. auto.
  - apply truthy_some in Ha, Ht. rewrite Ha, Ht. cbn [andb].
    destruct (Py.truthy genre) eqn:Hg.
    + exists genre, sta. split; [reflexivity |].
      split; [intros ->; discriminate |]. split; [exact Hwa |].
      split; [left; exact Hsa | intros _; exact Hsa].
    + destruct (get_genre_returns providers artist title sta)
        as (r & stb & Hres & Hr).
      destruct (get_genre_silent providers artist title sta) as (Hsb & Hwb & _).
      rewrite Hres in Hsb, Hwb |- *. simpl in Hsb, Hwb.
      destruct r as [g |].
      * destruct Hr as [Hr | Hr]; [discriminate |]. rewrite Hr.
        destruct (update_genre_effect host file_path g stb)
          as (stc & Hupd & _ & Hwc & Hsc).
        rewrite Hupd. exists (Some g), stc. split; [reflexivity |].
        split; [intros H; inversion H; subst; discriminate |].
        split; [rewrite Hwc, Hwb; exact Hwa |].
        split; [| discriminate].
        destruct (mutagen_File host file_path (world stb)) as [[[a |] | e] w1];
          destruct Hsc as [Hsc _]; rewrite Hsc, Hsb, Hsa;
          [right; exists g; auto | left; reflexivity | left; reflexivity].
      * exists None, stb. split; [reflexivity |]. split; [discriminate |].
        rewrite Hsb, Hwb. auto.
Qed.

(** X14.  [process_file] never raises; it reports the file under its base
    name, with a genre that is [None] or a non-empty string. *)
Theorem process_file_outcome providers file_path st :
  exists genre st1,
    process_file host providers file_path st
    = (Ret (os_path_basename file_path, genre), st1)
    /\ (genre = None \/ exists g, genre = Some g /\ g <> EmptyString).
Proof.
  destruct (process_file_effect providers file_path st)
    as (genre & st1 & Heq & Hne & _).
  exists genre, st1. split; [exact Heq |].
  destruct genre as [g |]; [right | left; reflexivity].
  exists g. split; [reflexivity |]. intros ->. apply Hne. reflexivity.
Qed.

(** X15.  [process_file] writes to the tags of its own file only, at most
    once, and only the genre it reports: it saves nothing when it reports
    no genre, and it never writes a report file. *)
Theorem process_file_saves_only_reported_genre providers file_path st :
  let run := process_file host providers file_path st in
  written_files (trace (snd run)) = written_files (trace st)
  /\ (saves (trace (snd run)) = saves (trace st)
      \/ exists g,
           fst run = Ret (os_path_basename file_path, Some g)
           /\ saves (trace (snd run))
              = (saves (trace st) ++ [(file_path, g)])%list)
  /\ (fst run = Ret (os_path_basename file_path, None) ->
      saves (trace (snd run)) = saves (trace st)).
Proof.
  cbv zeta.
  destruct (process_file_effect providers file_path st)
    as (genre & st1 & Heq & _ & Hw & Hs & Hnone).
  rewrite Heq. simpl. split; [exact Hw |]. split.
  - destruct Hs as [Hs | (g & -> & Hs)]; [left; exact Hs |].
    right. exists g. auto.
  - intros H. inversion H; subst. apply Hnone. reflexivity.
Qed.

Lemma process_files_effect providers (file_paths : list string) :
  forall st, exists results st1,
    process_files host providers file_paths st = (Ret results, st1)
    /\ map fst results = map os_path_basename file_paths
    /\ Forall (fun r => snd r <> Some EmptyString) results
    /\ written_files (trace st1) = written_files (trace st).
Proof.
  induction file_paths as [| file_path rest IH]; intros st.
  - exists [], st. simpl. repeat split; constructor.
  - simpl. unfold bind.
    destruct (process_file_effect providers file_path st)
      as (genre & sta & Heq & Hne & Hw & _).
    rewrite Heq. destruct (IH sta) as (results & stb & Hrest & Hnames & Hall & Hwb).
    rewrite Hrest. unfold ret.
    exists ((os_path_basename file_path, genre) :: results), stb.
    split; [reflexivity |]. split; [simpl; rewrite Hnames; reflexivity |].
    split; [constructor; assumption | rewrite Hwb; exact Hw].
Qed.

(** X16.  Processing a list of files never raises and gives one outcome per
    file, in the order of the list, each under the base name of its path
    and none with an empty string as genre. *)
Theorem process_files_one_outcome_per_file providers (file_paths : list string) st :
  exists results st1,
    process_files host providers file_paths st = (Ret results, st1)
    /\ map fst results = map os_path_basename file_paths
    /\ List.length results = List.length file_paths
    /\ Forall (fun r => snd r <> Some EmptyString) results.
Proof.
  destruct (process_files_effect providers file_paths st)
    as (results & st1 & Heq & Hnames & Hall & _).
  exists results, st1. split; [exact Heq |]. split; [exact Hnames |].
  split; [| exact Hall].
  rewrite <- (length_map fst results), Hnames. apply length_map.
Qed.

End ProcessMore.

(** ** The report and the run *)

Lemma percentages_sum (N k : nat) :
  N <> 0 -> k <= N ->
  k * 100 / N <= 100
  /\ (N - k) * 100 / N <= 100
  /\ (k * 100 / N + (N - k) * 100 / N = 100
      \/ k * 100 / N + (N - k) * 100 / N = 99)
  /\ (k * 100 / N + (N - k) * 100 / N = 100 <-> (k * 100) mod N = 0).
Proof.
  intros HN Hk.
  pose proof (Nat.div_mod_eq (k * 100) N) as Ha.
  pose proof (Nat.div_mod_eq ((N - k) * 100) N) as Hb.
  pose proof (Nat.mod_upper_bound (k * 100) N HN) as Hra.
  pose proof (Nat.mod_upper_bound ((N - k) * 100) N HN) as Hrb.
  set (p := k * 100 / N) in *. set (q := (N - k) * 100 / N) in *.
  set (ra := (k * 100) mod N) in *. set (rb := ((N - k) * 100) mod N) in *.
  assert (Hsum : N * (p + q) + (ra + rb) = 100 * N) by nia.
  assert (Hcases : (ra + rb = 0 /\ p + q = 100) \/ (ra + rb = N /\ p + q = 99)).
  { assert (Hle : p + q <= 100) by nia.
    assert (Hge : 99 <= p + q) by nia.
    assert (Hpq : p + q = 100 \/ p + q = 99) by lia.
    destruct Hpq as [Hpq | Hpq]; [left | right]; split; try exact Hpq; nia. }
  split; [nia |]. split; [nia |]. split; [tauto |].
  split; intros H; [lia |].
  destruct Hcases as [[_ Hpq] | [Hr Hpq]]; [exact Hpq |].
  exfalso. lia.
Qed.

(** X17.  The two percentages of the report are each at most 100 and add up
    to 100 or to 99: to 100 exactly when the number of files divides one
    hundred times the number of files with a genre. *)
Theorem report_percentages_sum (results : list (string * option string)) :
  results <> [] ->
  exists p q,
    floordiv (List.length (filter has_genre results) * 100) (List.length results)
    = Ret p
    /\ floordiv (List.length (filter (fun r => negb (has_genre r)) results) * 100)
                (List.length results)
       = Ret q
    /\ p <= 100 /\ q <= 100
    /\ (p + q = 100 \/ p + q = 99)
    /\ (p + q = 100
        <-> (List.length (filter has_genre results) * 100)
              mod (List.length results) = 0).
Proof.
  intros Hne.
  assert (HN : List.length results <> 0)
    by (destruct results; [contradiction | discriminate]).
  pose proof (filter_length_le has_genre results) as Hk.
  rewrite without_genre_count, !floordiv_by_positive by exact HN.
  eexists _, _. split; [reflexivity |]. split; [reflexivity |].
  apply percentages_sum; assumption.
Qed.

(** X18.  The two sections of the report split the outcomes: every outcome
    is in exactly one of them, the first holds the outcomes with a non-empty
    genre and the second those whose genre is [None] or empty. *)
Theorem report_sections_partition (results : list (string * option string)) :
  Permutation (filter has_genre results
               ++ filter (fun r => negb (has_genre r)) results) results
  /\ Forall (fun r => exists g, snd r = Some g /\ g <> EmptyString)
            (filter has_genre results)
  /\ Forall (fun r => snd r = None \/ snd r = Some EmptyString)
            (filter (fun r => negb (has_genre r)) results).
Proof.
  split; [| split].
  - induction results as [| r results IH]; simpl; [constructor |].
    destruct (has_genre r); simpl.
    + constructor. exact IH.
    + symmetry. apply Permutation_cons_app. symmetry. exact IH.
  - apply Forall_forall. intros [f g] Hr. apply filter_In in Hr.
    destruct Hr as [_ Hr]. unfold has_genre in Hr. simpl in Hr |- *.
    destruct g as [g |]; [| discriminate].
    exists g. split; [reflexivity |]. intros ->. discriminate.
  - apply Forall_forall. intros [f g] Hr. apply filter_In in Hr.
    destruct Hr as [_ Hr]. apply negb_true_iff in Hr.
    unfold has_genre in Hr. simpl in Hr |- *.
    destruct g as [g |]; [right | left; reflexivity].
    simpl in Hr. apply negb_false_iff, String.eqb_eq in Hr. subst. reflexivity.
Qed.

Section RunMore.

Context {W Client : Type} (host : Host W).

Implicit Types (providers : list (provider W Client)) (st : state W).

Lemma write_report_effect (args : arguments) (expanded_path : string)
    (results : list (string * option string)) st :
  (results = []
   /\ write_report host args expanded_path results st = (Ret tt, st))
  \/ (exists report_path content,
        report_text results = Ret content
        /\ write_report host args expanded_path results st
           = ext (EvWriteFile report_path content)
                 (write_text host report_path content) st
        /\ (report args = None ->
            report_path
            = if is_dir (os_stat host expanded_path)
              then os_path_join expanded_path "genre_report.txt"
              else os_path_join (os_path_dirname expanded_path)
                                "genre_report.txt")).
Proof.
  destruct results as [| r results]; [left; split; reflexivity |].
  right. destruct (report_text_non_empty r results) as [content Hc].
  unfold write_report. rewrite Hc.
  eexists _, content. split; [reflexivity |]. split; [reflexivity |].
  intros ->. reflexivity.
Qed.

Lemma ext_written (p content : string) st :
  trace (snd (ext (EvWriteFile p content) (write_text host p content) st))
  = (trace st ++ [EvWriteFile p content])%list
  /\ fst (ext (EvWriteFile p content) (write_text host p content) st)
     = fst (write_text host p content (world st)).
Proof.
  unfold ext. destruct (write_text host p content (world st)). split; reflexivity.
Qed.

(** X19.  A run writes at most one report, and as its last step: the trace
    of a run of [main] is the trace of processing some list of files one
    after the other, which holds the external calls of the lookups and the
    saves of the audio files, followed either by nothing or by the write of
    one report, whose text is the report text of the outcomes of these
    files.  When the report is written, the write starts in the world the
    last file left and the outcome of the run is the outcome of the write. *)
Theorem main_writes_at_most_one_report providers (args : arguments) st :
  let run := main host providers args st in
  exists files results st1,
    process_files host providers files st = (Ret results, st1)
    /\ List.length results = List.length files
    /\ (trace (snd run) = trace st1
        \/ exists report_path content,
             report_text results = Ret content
             /\ trace (snd run)
                = (trace st1 ++ [EvWriteFile report_path content])%list
             /\ fst run = fst (write_text host report_path content (world st1))
             /\ world (snd run)
                = snd (write_text host report_path content (world st1))).
Proof.
  cbv zeta. unfold main.
  assert (Hnone : exists files results st1,
             process_files host providers files st = (Ret results, st1)
             /\ List.length results = List.length files
             /\ (trace st = trace st1
                 \/ exists report_path content,
                      report_text results = Ret content
                      /\ trace st
                         = (trace st1 ++ [EvWriteFile report_path content])%list
                      /\ @Ret unit tt
                         = fst (write_text host report_path content (world st1))
                      /\ world st
                         = snd (write_text host report_path content (world st1)))).
  { exists [], [], st. split; [reflexivity |]. split; [reflexivity |].
    left. reflexivity. }
  destruct providers as [| p ps]; [exact Hnone |].
  set (providers := p :: ps) in *.
  set (expanded_path := os_path_expanduser host (path args)).
  assert (Hrun : forall files,
             let run := bind (process_files host providers files)
                             (write_report host args expanded_path) st in
             exists files results st1,
               process_files host providers files st = (Ret results, st1)
               /\ List.length results = List.length files
               /\ (trace (snd run) = trace st1
                   \/ exists report_path content,
                        report_text results = Ret content
                        /\ trace (snd run)
                           = (trace st1 ++ [EvWriteFile report_path content])%list
                        /\ fst run
                           = fst (write_text host report_path content (world st1))
                        /\ world (snd run)
                           = snd (write_text host report_path content
                                    (world st1)))).
  { intros files. cbv zeta. unfold bind.
    destruct (process_files_effect host providers files st)
      as (results & st1 & Heq & Hnames & _ & _).
    rewrite Heq. exists files, results, st1. split; [exact Heq |].
    split; [rewrite <- (length_map fst results), Hnames; apply length_map |].
    destruct (write_report_effect args expanded_path results st1)
      as [[_ Hnothing] | (report_path & content & Hc & Hwrite & _)].
    - left. rewrite Hnothing. reflexivity.
    - right. exists report_path, content. rewrite Hwrite. unfold ext.
      destruct (write_text host report_path content (world st1)) as [o w'].
      repeat split; try reflexivity. exact Hc. }
  cbv zeta in Hrun.
  destruct (os_stat host expanded_path) as [[f | d entries | f] |].
  - destruct (Py.endswith_any (Py.lower expanded_path) SUPPORTED_EXTENSIONS);
      [apply Hrun | exact Hnone].
  - apply Hrun.
  - exact Hnone.
  - exact Hnone.
Qed.

(** X20.  A run over a directory in which files are found, without the
    report option, processes every file found and then writes exactly one
    report, [genre_report.txt] inside that directory, whose text counts as
    many outcomes as files were found. *)
Theorem main_directory_report providers (args : arguments) st d entries :
  providers <> [] ->
  os_stat host (os_path_expanduser host (path args)) = Some (Dir d entries) ->
  report args = None ->
  let expanded_path := os_path_expanduser host (path args) in
  let files := if no_recurse args then found_flat expanded_path entries
               else found_walk expanded_path (Dir d entries) in
  files <> [] ->
  exists results st1 content,
    process_files host providers files st = (Ret results, st1)
    /\ List.length results = List.length files
    /\ report_text results = Ret content
    /\ trace (snd (main host providers args st))
       = (trace st1
          ++ [EvWriteFile (os_path_join expanded_path "genre_report.txt")
                          content])%list
    /\ written_files (trace (snd (main host providers args st)))
       = (written_files (trace st)
          ++ [os_path_join expanded_path "genre_report.txt"])%list.
Proof.
  intros Hproviders Hstat Hreport expanded_path files Hfiles.
  destruct (process_files_effect host providers files st)
    as (results & st1 & Heq & Hnames & _ & Hw).
  assert (Hlen : List.length results = List.length files).
  { rewrite <- (length_map fst results), Hnames. apply length_map. }
  destruct (write_report_effect args expanded_path results st1)
    as [[Hnil _] | (report_path & content & Hc & Hwrite & Hpath)].
  { exfalso. subst results. destruct files; [contradiction | discriminate]. }
  specialize (Hpath Hreport). fold expanded_path in Hstat.
  rewrite Hstat in Hpath. simpl in Hpath. subst report_path.
  exists results, st1, content. split; [exact Heq |]. split; [exact Hlen |].
  split; [exact Hc |].
  assert (Hmain : main host providers args st
                  = ext (EvWriteFile (os_path_join expanded_path "genre_report.txt")
                                     content)
                        (write_text host
                           (os_path_join expanded_path "genre_report.txt") content)
                        st1).
  { unfold main. destruct providers as [| p ps]; [contradiction |].
    cbv zeta. fold expanded_path. rewrite Hstat. fold files.
    unfold bind. rewrite Heq. exact Hwrite. }
  rewrite Hmain.
  destruct (ext_written (os_path_join expanded_path "genre_report.txt") content st1)
    as [Htr _].
  rewrite Htr. split; [reflexivity |].
  rewrite written_files_app, Hw. reflexivity.
Qed.

End RunMore.

(** ** Strings and paths *)

Lemma string_length_app (a b : string) :
  String.length (a ++ b) = String.length a + String.length b.
Proof. induction a as [| c a IH]; simpl; [reflexivity | rewrite IH; reflexivity]. Qed.

Lemma string_app_assoc (a b c : string) :
  ((a ++ b) ++ c)%string = (a ++ b ++ c)%string.
Proof. induction a as [| x a IH]; simpl; [reflexivity | rewrite IH; reflexivity]. Qed.

Lemma string_app_empty (a : string) : (a ++ "")%string = a.
Proof. induction a as [| x a IH]; simpl; [reflexivity | rewrite IH; reflexivity]. Qed.

Lemma substring_whole (s : string) : substring 0 (String.length s) s = s.
Proof. induction s as [| c s IH]; simpl; [reflexivity | rewrite IH; reflexivity]. Qed.

Lemma substring_after (a b : string) :
  substring (String.length a) (String.length b) (a ++ b) = b.
Proof. induction a as [| c a IH]; simpl; [apply substring_whole | exact IH]. Qed.

Lemma substring_split (s : string) :
  forall n, n <= String.length s ->
            s = (substring 0 n s ++ substring n (String.length s - n) s)%string.
Proof.
  induction s as [| c s IH]; intros n Hn; simpl in Hn.
  - destruct n; [reflexivity | lia].
  - destruct n as [| n].
    + simpl. rewrite substring_whole. reflexivity.
    + simpl. rewrite <- IH by lia. reflexivity.
Qed.

Lemma endswith_iff (s suffix : string) :
  Py.endswith s suffix = true <-> exists stem, s = (stem ++ suffix)%string.
Proof.
  unfold Py.endswith. rewrite andb_true_iff, Nat.leb_le, String.eqb_eq. split.
  - intros [Hlen Hsub].
    exists (substring 0 (String.length s - String.length suffix) s).
    rewrite (substring_split s (String.length s - String.length suffix)) at 1
      by lia.
    replace (String.length s - (String.length s - String.length suffix))
      with (String.length suffix) by lia.
    rewrite Hsub. reflexivity.
  - intros [stem ->]. rewrite string_length_app. split; [lia |].
    replace (String.length stem + String.length suffix - String.length suffix)
      with (String.length stem) by lia.
    apply substring_after.
Qed.

Lemma lower_app (a b : string) :
  Py.lower (a ++ b) = (Py.lower a ++ Py.lower b)%string.
Proof. induction a as [| c a IH]; simpl; [reflexivity | rewrite IH; reflexivity]. Qed.

(** X21.  A file name is supported exactly when, once lower-cased, it ends
    in ".mp3" or in ".flac"; so a name made of any stem, even an empty one,
    and of one of the two extensions in any letter case is supported.  A
    path is taken for FLAC exactly when, lower-cased, it ends in ".flac",
    and every such name is supported. *)
Theorem supported_iff_extension (filename : string) :
  (supported filename = true
   <-> exists stem, Py.lower filename = (stem ++ ".mp3")%string
                    \/ Py.lower filename = (stem ++ ".flac")%string)
  /\ (forall stem ext,
        filename = (stem ++ ext)%string ->
        Py.lower ext = ".mp3" \/ Py.lower ext = ".flac" ->
        supported filename = true)
  /\ (is_flac filename = true
      <-> exists stem, Py.lower filename = (stem ++ ".flac")%string)
  /\ (is_flac filename = true -> supported filename = true).
Proof.
  assert (Hiff : supported filename = true
                 <-> exists stem, Py.lower filename = (stem ++ ".mp3")%string
                                  \/ Py.lower filename = (stem ++ ".flac")%string).
  { unfold supported, Py.endswith_any, SUPPORTED_EXTENSIONS. simpl.
    rewrite orb_false_r, orb_true_iff, !endswith_iff. split.
    - intros [[stem H] | [stem H]]; exists stem; tauto.
    - intros [stem [H | H]]; [left | right]; exists stem; exact H. }
  assert (Hflac : is_flac filename = true
                  <-> exists stem, Py.lower filename = (stem ++ ".flac")%string)
    by (unfold is_flac; apply endswith_iff).
  split; [exact Hiff |]. split; [| split; [exact Hflac |]].
  - intros stem ext -> Hext. apply Hiff. exists (Py.lower stem).
    rewrite lower_app. destruct Hext as [-> | ->]; tauto.
  - intros H. apply Hiff. apply Hflac in H. destruct H as [stem H].
    exists stem. right. exact H.
Qed.

Lemma basename_from_app (a b : string) :
  forall segment,
    basename_from segment (a ++ b) = basename_from (basename_from segment a) b.
Proof.
  induction a as [| c a IH]; intros segment; simpl; [reflexivity |].
  destruct (Ascii.eqb c slash); apply IH.
Qed.

Lemma basename_from_no_slash (b : string) :
  forall segment,
    no_slash b = true -> basename_from segment b = (segment ++ b)%string.
Proof.
  induction b as [| c b IH]; intros segment H; simpl in *.
  - symmetry. apply string_app_empty.
  - apply andb_true_iff in H. destruct H as [Hc Hb].
    apply negb_true_iff in Hc. rewrite Hc, (IH _ Hb), string_app_assoc.
    reflexivity.
Qed.

Lemma prefix_slash_no_slash (b : string) :
  no_slash b = true -> prefix "/" b = false.
Proof.
  destruct b as [| c b]; [reflexivity |].
  intros H. simpl in H. apply andb_true_iff in H. destruct H as [Hc _].
  apply negb_true_iff, Ascii.eqb_neq in Hc.
  change (prefix "/" (String c b))
    with (match ascii_dec "/" c with
          | left _ => prefix "" b
          | right _ => false
          end).
  destruct (ascii_dec "/" c) as [E | E]; [| reflexivity].
  exfalso. apply Hc. symmetry. exact E.
Qed.

Lemma os_path_basename_join_name (root f : string) :
  no_slash f = true -> os_path_basename (os_path_join root f) = f.
Proof.
  intros Hf. unfold os_path_basename, os_path_join.
  rewrite (prefix_slash_no_slash _ Hf).
  destruct (String.eqb root "" || Py.endswith root "/") eqn:Hroot.
  - rewrite basename_from_app.
    assert (Hempty : basename_from "" root = EmptyString).
    { apply orb_true_iff in Hroot. destruct Hroot as [H | H].
      - apply String.eqb_eq in H. subst. reflexivity.
      - apply endswith_iff in H. destruct H as [stem ->].
        rewrite basename_from_app. reflexivity. }
    rewrite Hempty. apply (basename_from_no_slash f EmptyString Hf).
  - rewrite basename_from_app.
    change ("/" ++ f)%string with (String slash f). simpl.
    apply (basename_from_no_slash f EmptyString Hf).
Qed.

Lemma sorted_perm_unique (l1 : list string) :
  forall l2, sorted_names l1 -> sorted_names l2 -> Permutation l1 l2 -> l1 = l2.
Proof.
  unfold sorted_names.
  assert (Htrans : Relations_1.Transitive (fun a b => String.leb a b = true))
    by (intros a b c; apply string_leb_trans).
  induction l1 as [| x l1 IH]; intros l2 H1 H2 Hperm.
  - apply Permutation_nil in Hperm. symmetry. exact Hperm.
  - destruct l2 as [| y l2];
      [apply Permutation_sym, Permutation_nil in Hperm; discriminate |].
    pose proof (Sorted_StronglySorted Htrans H1) as S1.
    pose proof (Sorted_StronglySorted Htrans H2) as S2.
    inversion S1 as [| ? ? _ Hx]; inversion S2 as [| ? ? _ Hy]; subst.
    rewrite Forall_forall in Hx, Hy.
    assert (Hxy : x = y).
    { assert (Hin1 : In x (y :: l2))
        by (apply (Permutation_in _ Hperm); left; reflexivity).
      assert (Hin2 : In y (x :: l1))
        by (apply (Permutation_in _ (Permutation_sym Hperm)); left; reflexivity).
      destruct Hin1 as [E | Hin1]; [symmetry; exact E |].
      destruct Hin2 as [E | Hin2]; [exact E |].
      apply String.leb_antisym; [apply Hx | apply Hy]; assumption. }
    subst y. f_equal. apply IH.
    + inversion H1; assumption.
    + inversion H2; assumption.
    + apply (Permutation_cons_inv Hperm).
Qed.

Lemma walk_files_all_regular (entries : list node) :
  all_regular entries = true -> walk_files entries = regular_files entries.
Proof.
  unfold all_regular. induction entries as [| e entries IH]; [reflexivity |].
  simpl. intros H. apply andb_true_iff in H. destruct H as [He Hrest].
  destruct e as [f | d sub | f]; simpl; try discriminate;
    fold (walk_files entries); fold (regular_files entries);
    rewrite (IH Hrest); reflexivity.
Qed.

(** X22.  In a directory whose entries have distinct names and whose
    entries that are no directories are all regular files, the paths found
    with recursion begin with the paths found without: the recursive listing
    is the flat listing followed by the walks of the subdirectories. *)
Theorem found_walk_begins_with_found_flat (top d : string) (entries : list node) :
  NoDup (os_listdir entries) ->
  all_regular entries = true ->
  found_walk top (Dir d entries)
  = (found_flat top entries
     ++ flat_map (fun sub => found_walk (os_path_join top (fst sub))
                                        (Dir (fst sub) (snd sub)))
                 (subdirectories entries))%list.
Proof.
  intros Hnd Hreg.
  rewrite found_walk_dir, found_walk_subdirectories. f_equal.
  unfold found_flat. f_equal.
  apply sorted_perm_unique.
  - apply filter_sorted, sorted_sorted.
  - apply filter_sorted, sorted_sorted.
  - rewrite (filter_perm _ _ _ (sorted_perm (walk_files entries))).
    rewrite (filter_perm _ _ _ (sorted_perm (os_listdir entries))).
    rewrite (listed_files entries entries Hnd (incl_refl _)).
    rewrite (walk_files_all_regular _ Hreg). reflexivity.
Qed.

(** An entry that is neither a directory nor a regular file, a dangling
    link for one, is found by the walk and not by the flat listing. *)
Lemma found_walk_lists_special_entries :
  found_walk "/m" (Dir "m" [Special "x.mp3"]) = ["/m/x.mp3"]
  /\ found_flat "/m" [Special "x.mp3"] = [].
Proof. split; reflexivity. Qed.

Section NamesMore.

Context {W Client : Type} (host : Host W).

(** X23.  For a directory whose entry names hold no slash, the outcomes of
    a run without recursion carry exactly the names of the supported files
    of the directory, in sorted order. *)
Theorem flat_run_reports_entry_names
    (providers : list (provider W Client)) (root : string)
    (entries : list node) (st : state W) :
  Forall (fun e => no_slash (node_name e) = true) entries ->
  exists results st1,
    process_files host providers (found_flat root entries) st
    = (Ret results, st1)
    /\ map fst results
       = filter (fun f => isfile_in entries f && supported f)
                (Py.sorted (os_listdir entries))
    /\ sorted_names (map fst results)
    /\ (forall f, In f (map fst results)
                  <-> In (File f) entries /\ supported f = true).
Proof.
  intros Hnames.
  destruct (process_files_effect host providers (found_flat root entries) st)
    as (results & st1 & Heq & Hfst & _).
  exists results, st1. split; [exact Heq |].
  assert (Hmap : map fst results
                 = filter (fun f => isfile_in entries f && supported f)
                          (Py.sorted (os_listdir entries))).
  { rewrite Hfst. unfold found_flat. rewrite map_map.
    rewrite <- (map_id (filter _ _)) at 2. apply map_ext_in.
    intros f Hf. apply filter_In in Hf. destruct Hf as [Hf _].
    apply (Permutation_in _ (sorted_perm _)) in Hf.
    unfold os_listdir in Hf. apply in_map_iff in Hf.
    destruct Hf as (e & <- & He). rewrite Forall_forall in Hnames.
    apply os_path_basename_join_name. apply Hnames. exact He. }
  split; [exact Hmap |]. rewrite Hmap. split.
  - apply filter_sorted, sorted_sorted.
  - intros f. rewrite filter_In, andb_true_iff, isfile_in_true. split.
    + tauto.
    + intros [Hf Hs]. split; [| tauto].
      apply (Permutation_in _ (Permutation_sym (sorted_perm _))).
      unfold os_listdir. apply (in_map node_name _ _ Hf).
Qed.

End NamesMore.

(** ** The provider chain *)

Section ChainMore.

Context {W : Type} (host : Host W).
Context (spotify_adapter :
           spotify_client W -> string -> string -> W -> outcome (option string) * W).

Lemma build_providers_names (flags : provider_flags) (inst : installation W) :
  map name (build_providers host spotify_adapter flags inst)
  = ((if spotify_on flags inst then ["Spotify"] else [])
     ++ (if lastfm_on flags inst then ["Last.fm"] else [])
     ++ (if discogs_on flags inst then ["Discogs"] else [])
     ++ (if wikipedia_on flags inst
         then ["Wikipedia (Track)"; "Wikipedia (Artist)"] else []))%list.
Proof.
  unfold build_providers, spotify_on, lastfm_on, discogs_on, wikipedia_on.
  destruct flags as [f1 f2 f3 f4].
  destruct inst as [ns pl key secret dp token wp]. simpl.
  destruct f1, f2, f3, f4, ns, pl, (String.eqb key ""), (String.eqb secret ""),
    dp, (String.eqb token ""), wp; reflexivity.
Qed.

(** X24.  The chain [main] builds lists the available families in the fixed
    order Spotify, Last.fm, Discogs, Wikipedia by track, Wikipedia by
    artist, whatever the options: no name occurs twice, a family switched
    off by its option is absent, and the two encyclopedia entries come
    together or not at all. *)
Theorem build_providers_priority_order (flags : provider_flags)
    (inst : installation W) :
  let names := map name (build_providers host spotify_adapter flags inst) in
  names
  = ((if spotify_on flags inst then ["Spotify"] else [])
     ++ (if lastfm_on flags inst then ["Last.fm"] else [])
     ++ (if discogs_on flags inst then ["Discogs"] else [])
     ++ (if wikipedia_on flags inst
         then ["Wikipedia (Track)"; "Wikipedia (Artist)"] else []))%list
  /\ NoDup names
  /\ (no_spotify flags = true -> ~ In "Spotify" names)
  /\ (no_lastfm flags = true -> ~ In "Last.fm" names)
  /\ (no_discogs flags = true -> ~ In "Discogs" names)
  /\ (no_wikipedia flags = true ->
      ~ In "Wikipedia (Track)" names /\ ~ In "Wikipedia (Artist)" names)
  /\ (In "Wikipedia (Track)" names <-> In "Wikipedia (Artist)" names).
Proof.
  cbv zeta. rewrite build_providers_names.
  split; [reflexivity |].
  assert (Hs : no_spotify flags = true -> spotify_on flags inst = false)
    by (unfold spotify_on; intros ->; reflexivity).
  assert (Hl : no_lastfm flags = true -> lastfm_on flags inst = false)
    by (unfold lastfm_on; intros ->; reflexivity).
  assert (Hd : no_discogs flags = true -> discogs_on flags inst = false)
    by (unfold discogs_on; intros ->; reflexivity).
  assert (Hw : no_wikipedia flags = true -> wikipedia_on flags inst = false)
    by (unfold wikipedia_on; intros ->; reflexivity).
  destruct (spotify_on flags inst), (lastfm_on flags inst),
    (discogs_on flags inst), (wikipedia_on flags inst); simpl;
    (split; [repeat constructor; simpl; intuition discriminate |]);
    repeat split; intros; simpl in *;
    try (intuition discriminate).
Qed.

(** X25.  When no family is available - switched off, without its package
    or without its credentials - the chain is empty and the run ends at
    once: no file is opened and nothing is written. *)
Theorem main_from_options_without_providers (flags : provider_flags)
    (inst : installation W) (args : arguments) (st : state W) :
  spotify_on flags inst = false ->
  lastfm_on flags inst = false ->
  discogs_on flags inst = false ->
  wikipedia_on flags inst = false ->
  build_providers host spotify_adapter flags inst = []
  /\ main_from_options host spotify_adapter flags inst args st = (Ret tt, st).
Proof.
  intros Hs Hl Hd Hw.
  assert (Hnil : build_providers host spotify_adapter flags inst = []).
  { pose proof (build_providers_names flags inst) as H.
    rewrite Hs, Hl, Hd, Hw in H. simpl in H.
    destruct (build_providers host spotify_adapter flags inst);
      [reflexivity | discriminate]. }
  split; [exact Hnil |].
  unfold main_from_options. rewrite Hnil. reflexivity.
Qed.

End ChainMore.

(** ** The front end reading the output of the script *)





Lemma split_from_step (sep piece : string) (c : ascii) (s : string) :
  PyStr.split_from sep 0 piece (String c s)
  = if prefix sep (String c s)
    then piece :: PyStr.split_from sep (String.length sep - 1) EmptyString s
    else PyStr.split_from sep 0 (piece ++ String c EmptyString)%string s.
Proof. reflexivity. Qed.


Lemma contains_step (needle : string) (c : ascii) (s : string) :
  Py.contains needle (String c s)
  = prefix needle (String c s) || Py.contains needle s.
Proof. reflexivity. Qed.

Lemma split_from_absent (sep : string) (s : string) :
  forall piece,
    Py.contains sep s = false ->
    PyStr.split_from sep 0 piece s = [(piece ++ s)%string].
Proof.
  induction s as [| c s IH]; intros piece H.
  - simpl. rewrite string_app_empty. reflexivity.
  - rewrite contains_step in H. apply orb_false_iff in H. destruct H as [Hp Hc].
    rewrite split_from_step, Hp, (IH _ Hc), string_app_assoc. reflexivity.
Qed.




Lemma handle_line_effect (line : string) :
  match GUI.handle_line line with
  | Ret calls =>
      GUI.summaries calls
      = filter (fun l => negb (String.eqb l "")) [Py.strip line]
      /\ ~ In GUI.ProcessingFinished calls
  | Exc e =>
      e = IndexError
      /\ prefix "INFO: Found:" (Py.strip line) = true
  end.
Proof.
  unfold GUI.handle_line. cbv zeta.
  assert (Hfilter : filter (fun l => negb (String.eqb l "")) [Py.strip line]
                    = if String.eqb (Py.strip line) "" then []
                      else [Py.strip line]).
  { simpl. destruct (String.eqb (Py.strip line) ""); reflexivity. }
  rewrite Hfilter.
  destruct (String.eqb (Py.strip line) "") eqn:Hblank.
  - split; [reflexivity | simpl; tauto].
  - destruct (prefix "INFO: Found:" (Py.strip line)) eqn:Hstart.
    + destruct (nth_error (PyStr.split (Py.strip line) "INFO: Found: ") 1).
      * split; [reflexivity | simpl; intuition discriminate].
      * split; reflexivity.
    + split; [reflexivity | simpl; intuition discriminate].
Qed.

Lemma read_lines_effect (lines : list string) :
  exists k,
    k <= List.length lines
    /\ GUI.summaries (fst (GUI.read_lines lines))
       = filter (fun l => negb (String.eqb l ""))
                (map Py.strip (firstn k lines))
    /\ ~ In GUI.ProcessingFinished (fst (GUI.read_lines lines))
    /\ match snd (GUI.read_lines lines) with
       | Ret _ => k = List.length lines
       | Exc e =>
           e = IndexError
           /\ exists line, nth_error lines k = Some line
                           /\ prefix "INFO: Found:" (Py.strip line) = true
       end.
Proof.
  induction lines as [| line lines IH].
  - exists 0. simpl. repeat split; auto.
  - simpl GUI.read_lines. pose proof (handle_line_effect line) as Hline.
    destruct (GUI.handle_line line) as [calls | e].
    + destruct IH as (k & Hk & Hsum & Hfin & Hout).
      destruct (GUI.read_lines lines) as [more o]. simpl in *.
      destruct Hline as [Hcalls Hnot].
      exists (S k). split; [lia |]. split; [| split].
      * unfold GUI.summaries in *. rewrite flat_map_app, Hcalls, Hsum.
        simpl. destruct (negb (String.eqb (Py.strip line) "")); reflexivity.
      * rewrite in_app_iff. tauto.
      * destruct o as [[] | e]; [lia | exact Hout].
    + destruct Hline as [-> Hstart]. exists 0. simpl.
      split; [lia |]. split; [reflexivity |]. split; [tauto |].
      split; [reflexivity |]. exists line. split; [reflexivity | exact Hstart].
Qed.

(** X27.  The reader appends to the summary the lines of the output, each
    stripped, blank lines left out, in the order read and up to the line
    that made it fail, if one did; it can only fail with [IndexError], on a
    line that starts with the marker; and it schedules the end of the
    processing exactly when it did not fail, as its last call. *)
Theorem run_tagger_summary (lines : list string) :
  exists k,
    k <= List.length lines
    /\ GUI.summaries (fst (GUI.run_tagger lines))
       = filter (fun l => negb (String.eqb l ""))
                (map Py.strip (firstn k lines))
    /\ match snd (GUI.run_tagger lines) with
       | Ret _ =>
           k = List.length lines
           /\ exists calls,
                fst (GUI.run_tagger lines)
                = (calls ++ [GUI.ProcessingFinished])%list
                /\ ~ In GUI.ProcessingFinished calls
       | Exc e =>
           e = IndexError
           /\ ~ In GUI.ProcessingFinished (fst (GUI.run_tagger lines))
           /\ exists line, nth_error lines k = Some line
                           /\ prefix "INFO: Found:" (Py.strip line) = true
       end.
Proof.
  destruct (read_lines_effect lines) as (k & Hk & Hsum & Hfin & Hout).
  exists k. split; [exact Hk |]. unfold GUI.run_tagger.
  destruct (GUI.read_lines lines) as [calls [[] | e]]; simpl in *.
  - split.
    + unfold GUI.summaries in *. rewrite flat_map_app, Hsum. simpl.
      apply app_nil_r.
    + split; [exact Hout |]. exists calls. split; [reflexivity | exact Hfin].
  - split; [exact Hsum |]. destruct Hout as [He Hline].
    split; [exact He |]. split; [exact Hfin | exact Hline].
Qed.

(** X28.  A line that starts with "INFO: Found:" but does not hold the
    marker with its blank, "INFO: Found: ", makes the reader fail with
    [IndexError] before it schedules anything for that line. *)
Theorem handle_line_marker_without_path (line : string) :
  prefix "INFO: Found:" (Py.strip line) = true ->
  Py.contains "INFO: Found: " (Py.strip line) = false ->
  GUI.handle_line line = Exc IndexError.
Proof.
  intros Hstart Habsent. unfold GUI.handle_line. cbv zeta.
  destruct (String.eqb (Py.strip line) "") eqn:Hblank.
  - apply String.eqb_eq in Hblank. rewrite Hblank in Hstart. discriminate.
  - rewrite Hstart. unfold PyStr.split.
    rewrite (split_from_absent _ _ _ Habsent). reflexivity.
Qed.

(* ================================================================== *)
(** * Concrete runs in the scripted world *)
(* ================================================================== *)

Import Mock.

(** C1, as first stated, fails on an adapter that returns the empty
    string: provider A returns [""], which is not [None], yet the resolver
    goes on, invokes provider B and returns B's result. *)
Lemma get_genre_skips_empty_string :
  invoke A_empty "Queen" "Bijou" (start [])
  = (Ret (Some EmptyString),
     mkState (mkWorld [] 0) [EvInvoke "A" "Queen" "Bijou"])
  /\ get_genre [A_empty; B_rock] "Queen" "Bijou" (start [])
     = (Ret (Some "Rock"),
        mkState (mkWorld [] 0)
                [EvInvoke "A" "Queen" "Bijou"; EvInvoke "B" "Queen" "Bijou"]).
Proof. split; reflexivity. Qed.

Lemma get_genre_first_non_empty_witness :
  get_genre [E_fails; A_empty; D_none; B_rock; C_pop] "Queen" "Bijou" (start [])
  = (Ret (Some "Rock"),
     mkState (mkWorld [] 0)
             [EvInvoke "E" "Queen" "Bijou"; EvInvoke "A" "Queen" "Bijou";
              EvInvoke "D" "Queen" "Bijou"; EvInvoke "B" "Queen" "Bijou"])
  /\ invocations [EvInvoke "E" "Queen" "Bijou"; EvInvoke "A" "Queen" "Bijou";
                  EvInvoke "D" "Queen" "Bijou"; EvInvoke "B" "Queen" "Bijou"]
     = ["E"; "A"; "D"; "B"].
Proof.
  apply (get_genre_first_non_empty [E_fails; A_empty; D_none] [C_pop] B_rock
           "Queen" "Bijou" (start [])
           (mkState (mkWorld [] 0)
                    [EvInvoke "E" "Queen" "Bijou"; EvInvoke "A" "Queen" "Bijou";
                     EvInvoke "D" "Queen" "Bijou"]));
    reflexivity.
Defined.

Lemma get_genre_catches_exceptions_witness :
  get_genre [E_fails; B_rock] "Queen" "Bijou" (start [])
  = get_genre [B_rock] "Queen" "Bijou"
      (mkState (mkWorld [] 0) [EvInvoke "E" "Queen" "Bijou"])
  /\ get_genre [E_fails; D_none] "Queen" "Bijou" (start [])
     = (Ret None,
        mkState (mkWorld [] 0)
                [EvInvoke "E" "Queen" "Bijou"; EvInvoke "D" "Queen" "Bijou"]).
Proof.
  split.
  - destruct (get_genre_catches_exceptions [E_fails; B_rock] "Queen" "Bijou"
                (start [])) as (_ & Hnext & _).
    apply (Hnext E_fails [B_rock] (OtherException "connection reset"));
      reflexivity.
  - destruct (get_genre_catches_exceptions [E_fails; D_none] "Queen" "Bijou"
                (start [])) as (_ & _ & Hnone).
    apply Hnone. reflexivity.
Defined.


(** Against the scripted catalog that always signals the rate limit, the
    nested calls reach the recursion limit. *)
Lemma get_genre_spotify_busy_reaches_recursion_limit
    (fuel : nat) (st : state world) :
  get_genre_spotify host fuel sp_busy "Queen" "Innuendo" st = None.
Proof.
  apply get_genre_spotify_reaches_recursion_limit.
  intros st'. eexists. reflexivity.
Qed.

(** A retry interval too large for the clock, one that is no integer, a
    negative one and a negative one too large for the clock: the exception
    raised in the rate-limit handler escapes the adapter, after one search
    and no sleep. *)
Lemma get_genre_spotify_handler_raises :
  option_map (fun r => (fst r, sleeps (trace (snd r)),
                        List.length (searches (trace (snd r)))))
             (get_genre_spotify host_bounded_clock 2 sp "Queen" "Innuendo"
                (start [rate_limit "99999999999999999999"; Ret ["t1"]]))
  = Some (Exc (OtherException "OverflowError"), [], 1)
  /\ option_map (fun r => (fst r, sleeps (trace (snd r)),
                           List.length (searches (trace (snd r)))))
                (get_genre_spotify host_bounded_clock 2 sp "Queen" "Innuendo"
                   (start [rate_limit "soon"; Ret ["t1"]]))
     = Some (Exc ValueError, [], 1)
  /\ option_map (fun r => (fst r, sleeps (trace (snd r)),
                           List.length (searches (trace (snd r)))))
                (get_genre_spotify host_bounded_clock 2 sp "Queen" "Innuendo"
                   (start [rate_limit "-1"; Ret ["t1"]]))
     = Some (Exc ValueError, [], 1)
  /\ option_map (fun r => (fst r, sleeps (trace (snd r)),
                           List.length (searches (trace (snd r)))))
                (get_genre_spotify host_bounded_clock 2 sp "Queen" "Innuendo"
                   (start [rate_limit "-99999999999999999999"; Ret ["t1"]]))
     = Some (Exc (OtherException "OverflowError"), [], 1).
Proof. repeat split. Qed.


Lemma process_file_already_tagged_witness :
  process_file host [B_rock] "/music/a.flac" (start [])
  = (Ret ("a.flac", Some "Rock"),
     mkState (mkWorld [] 0) [EvMutagenFile "/music/a.flac"])
  /\ invocations [EvMutagenFile "/music/a.flac"] = [].
Proof.
  apply (process_file_already_tagged host [B_rock] "/music/a.flac" (start [])
           "Queen" "Bohemian Rhapsody" None "Rock");
    [reflexivity | discriminate | discriminate | discriminate].
Defined.

(** The write-back of the scripted tag library fails; the resolved genre is
    reported all the same. *)
Lemma process_file_reports_resolved_genre_witness :
  audiofile_save host "/music/c.flac"
    (audiofile_set (mkAudio [("artist", ["Queen"]); ("title", ["Bijou"])])
                   "genre" "Rock")
    (mkWorld [] 0)
  = (Exc (OtherException "read-only file"), mkWorld [] 0)
  /\ process_file host [D_none; B_rock] "/music/c.flac" (start [])
     = (Ret ("c.flac", Some "Rock"),
        mkState (mkWorld [] 0)
                [EvMutagenFile "/music/c.flac"; EvInvoke "D" "Queen" "Bijou";
                 EvInvoke "B" "Queen" "Bijou"; EvMutagenFile "/music/c.flac";
                 EvSave "/music/c.flac" "Rock"]).
Proof.
  split; [reflexivity |].
  apply (process_file_reports_resolved_genre host [D_none; B_rock]
           "/music/c.flac" (start []) "Queen" "Bijou" None None
           (mkState (mkWorld [] 0) [EvMutagenFile "/music/c.flac"]) "Rock"
           (mkState (mkWorld [] 0)
                    [EvMutagenFile "/music/c.flac"; EvInvoke "D" "Queen" "Bijou";
                     EvInvoke "B" "Queen" "Bijou"]));
    reflexivity.
Defined.

Lemma process_file_missing_artist_or_title_witness :
  process_file host [B_rock] "/music/d.flac" (start [])
  = (Ret ("d.flac", None),
     mkState (mkWorld [] 0) [EvMutagenFile "/music/d.flac"])
  /\ invocations [EvMutagenFile "/music/d.flac"] = [].
Proof.
  apply (process_file_missing_artist_or_title host [B_rock] "/music/d.flac"
           (start []) None None None None);
    [reflexivity | left; reflexivity].
Defined.

(** Seven files of which three have a genre: the report shows 42% and
    57%. *)
Lemma report_percentages_floor_witness :
  (exists rest,
      report_text seven_results
      = Ret ("Genre Report" ++ nl
             ++ "============================================================"
             ++ nl
             ++ "Total files processed : 7" ++ nl
             ++ "With genre tag        : 3 (42%)" ++ nl
             ++ "Without genre tag     : 4 (57%)" ++ nl
             ++ rest)%string)
  /\ 42 * 7 <= 3 * 100 < 43 * 7
  /\ 57 * 7 <= 4 * 100 < 58 * 7.
Proof.
  destruct (report_percentages_floor seven_results)
    as (Htext & _ & _ & Hwith & Hwithout); [discriminate |].
  split; [exact Htext | split; [exact Hwith | exact Hwithout]].
Defined.

(** C9, as first stated, fails on the order of the subdirectories: the walk
    enters them in the order in which the directory lists them, here [beta]
    before [alpha], and not in the order of their names. *)
Lemma found_walk_subdirectories_as_listed :
  found_walk "/m" (Dir "m" [Dir "beta" [File "b.mp3"]; Dir "alpha" [File "a.mp3"]])
  = ["/m/beta/b.mp3"; "/m/alpha/a.mp3"]
  /\ String.leb "alpha" "beta" = true
  /\ String.leb "beta" "alpha" = false
  /\ String.leb "/m/beta/b.mp3" "/m/alpha/a.mp3" = false.
Proof. repeat split. Qed.

(** The shelf: two supported regular files, a dangling link with a
    supported name, a text file and a subdirectory.  Without recursion the
    two regular files are found, sorted; with recursion the link is found
    too, and the file of the subdirectory comes last. *)
Lemma directory_enumeration_witness :
  NoDup (os_listdir shelf)
  /\ found_flat "/music" shelf = ["/music/a.FLAC"; "/music/b.flac"]
  /\ found_walk "/music" (Dir "music" shelf)
     = (["/music/a.FLAC"; "/music/b.flac"; "/music/lost.mp3"]
        ++ found_walk "/music/live" (Dir "live" [File "z.mp3"; File "y.mp3"])
        ++ found_walk "/music/demos" (Dir "demos" [File "c.mp3"]))%list
  /\ found_under "/music" shelf "/music/live/y.mp3".
Proof.
  assert (Hnd : NoDup (os_listdir shelf)).
  { repeat constructor; simpl; intuition discriminate. }
  destruct (directory_enumeration "/music" "music" shelf)
    as ((names & Hflat & Hsorted & _ & Hperm)
        & (names' & Hwalk & Hsorted' & Hperm') & Hunder).
  split; [exact Hnd |]. split; [| split].
  - rewrite Hflat.
    rewrite (sorted_perm_unique names ["a.FLAC"; "b.flac"] Hsorted).
    + reflexivity.
    + repeat constructor.
    + rewrite (Hperm Hnd). apply perm_swap.
  - rewrite Hwalk.
    rewrite (sorted_perm_unique names' ["a.FLAC"; "b.flac"; "lost.mp3"]
               Hsorted').
    + reflexivity.
    + repeat constructor.
    + rewrite Hperm'. simpl.
      apply (perm_trans (perm_skip "b.flac" (perm_swap "a.FLAC" "lost.mp3" [])
                       )).
      apply perm_swap.
  - apply Hunder. simpl. tauto.
Defined.

Lemma no_report_without_results_witness :
  main host [B_rock] (mkArgs "/scans" false None) (start [])
  = (Ret tt, start [])
  /\ written_files (trace (snd (main host [B_rock] (mkArgs "/scans" false None)
                                  (start []))))
     = [].
Proof.
  destruct (no_report_without_results host [B_rock] (mkArgs "/scans" false None)
              (start [])) as (_ & _ & Hmain).
  apply (Hmain "scans" [File "front.png"; File "track.wav"]); reflexivity.
Defined.

(** The files of the scripted music directory, without and with recursion:
    sorted inside each directory, a directory before its subdirectories,
    each subdirectory as a whole in the order it is listed. *)
Lemma found_flat_music :
  found_flat "/music"
             [File "b.flac"; Dir "live" [File "z.mp3"; File "cover.jpg"];
              File "notes.txt"; File "a.FLAC";
              Dir "demos" [Dir "old" [File "k.mp3"]; File "c.mp3"]]
  = ["/music/a.FLAC"; "/music/b.flac"].
Proof. reflexivity. Qed.

Lemma found_walk_music :
  found_walk "/music" music
  = ["/music/a.FLAC"; "/music/b.flac"; "/music/live/z.mp3";
     "/music/demos/c.mp3"; "/music/demos/old/k.mp3"].
Proof. reflexivity. Qed.

(** The social-tagging adapter on tags that are all in its stoplist: the
    list of terms is empty and the adapter returns [None]. *)
Lemma get_genre_lastfm_stoplist_only :
  get_genre_lastfm
    (mkLastfm (fun _ _ w => (Ret ["seen live"; "Favorites"; "LOVED"], w)))
    "Queen" "Innuendo" (mkWorld [] 0)
  = (Ret None, mkWorld [] 0)
  /\ get_genre_lastfm
       (mkLastfm (fun _ _ w => (Ret ["seen live"; "hard rock"; "glam ROCK"], w)))
       "Queen" "Innuendo" (mkWorld [] 0)
     = (Ret (Some "Hard Rock, Glam Rock"), mkWorld [] 0).
Proof. split; reflexivity. Qed.

(** ** Concrete runs for the further properties *)

Lemma get_genre_lastfm_ignores_stoplist_witness :
  get_genre_lastfm
    (mkLastfm (fun _ _ w => (Ret ["seen live"; "hard rock"], w)))
    "Queen" "Innuendo" (mkWorld [] 0)
  = get_genre_lastfm
      (mkLastfm (fun _ _ w => (Ret ["hard rock"; "Favorites"; "LOVED"], w)))
      "Queen" "Innuendo" (mkWorld [] 0).
Proof.
  apply (get_genre_lastfm_ignores_stoplist
           (mkLastfm (fun _ _ w => (Ret ["seen live"; "hard rock"], w)))
           (mkLastfm (fun _ _ w => (Ret ["hard rock"; "Favorites"; "LOVED"], w)))
           "Queen" "Innuendo" (mkWorld [] 0) (mkWorld [] 0)
           ["seen live"; "hard rock"] ["hard rock"; "Favorites"; "LOVED"]);
    reflexivity.
Defined.

Lemma adapters_never_raise_and_return_title_case_witness :
  get_genre_lastfm
    (mkLastfm (fun _ _ w => (Ret ["seen live"; "hard rock"; "glam ROCK"], w)))
    "Queen" "Innuendo" (mkWorld [] 0)
  = (Ret (Some "Hard Rock, Glam Rock"), mkWorld [] 0)
  /\ Py.isascii "Hard Rock, Glam Rock" = true
  /\ Py.title "Hard Rock, Glam Rock" = "Hard Rock, Glam Rock".
Proof.
  split; [reflexivity |].
  destruct (adapters_never_raise_and_return_title_case Mock.host
              (mkLastfm (fun _ _ w =>
                           (Ret ["seen live"; "hard rock"; "glam ROCK"], w)))
              (mkDiscogs (fun _ w => (Ret [], w)))
              "Queen" "Innuendo" (mkWorld [] 0))
    as ((result & w1 & Heq & Htitle) & _).
  apply (Htitle ["seen live"; "hard rock"; "glam ROCK"]);
    [reflexivity | reflexivity |].
  inversion Heq. reflexivity.
Defined.

Lemma wiki_rows_genre_terms_witness :
  exists terms,
    "Hard Rock, Glam Rock" = Py.join ", " terms
    /\ Forall (fun g => g <> EmptyString
                        /\ Py.strip g = g
                        /\ Py.title g = g
                        /\ Py.isascii g = true) terms.
Proof.
  apply (wiki_rows_genre_terms
           [mkTr (Some "Released") (Some (mkTd [] "1991"));
            mkTr (Some "Genre") (Some (mkTd [] " hard rock, glam ROCK | "))]);
    reflexivity.
Defined.

Lemma wiki_first_genre_row_decides_witness :
  wiki_rows_genre
    ([mkTr (Some "Released") (Some (mkTd [] "1991"))]
     ++ mkTr (Some "Genre") None
        :: [mkTr (Some "Genres") (Some (mkTd ["hard rock"] ""))])
  = None.
Proof.
  apply (wiki_first_genre_row_decides
           [mkTr (Some "Released") (Some (mkTd [] "1991"))]
           [mkTr (Some "Genres") (Some (mkTd ["hard rock"] ""))]
           (mkTr (Some "Genre") None));
    reflexivity.
Defined.

Lemma extract_metadata_empty_value_list_witness :
  fst (extract_metadata Mock.host "/music/b.flac" (start [])) = Ret no_metadata.
Proof.
  apply (extract_metadata_empty_value_list Mock.host "/music/b.flac" (start [])
           (tagged ["Queen"] ["Innuendo"] []) (mkWorld [] 0) "genre");
    [reflexivity | right; right; right; left; reflexivity | reflexivity].
Defined.

Lemma extract_metadata_misses_stored_genre_witness :
  exists artist title comments,
    fst (extract_metadata Stored.host "/music/s.mp3" (start []))
    = Ret (artist, title, comments, None).
Proof.
  apply (extract_metadata_misses_stored_genre Stored.host "/music/s.mp3"
           (start []) Stored.before "Rock" (mkWorld [] 0));
    reflexivity.
Defined.

Lemma process_file_again_after_store_witness :
  process_file Stored.host [B_rock] "/music/s.flac" (start [])
  = (Ret ("s.flac", Some "Rock"),
     mkState (mkWorld [] 0) [EvMutagenFile "/music/s.flac"]).
Proof.
  apply (process_file_again_after_store Stored.host [B_rock] "/music/s.flac"
           (start []) Stored.before "Rock" (mkWorld [] 0) "Queen" "Bijou"
           (Some "live"));
    try reflexivity; discriminate.
Defined.

Lemma report_percentages_sum_witness :
  exists p q,
    floordiv (List.length (filter has_genre seven_results) * 100)
             (List.length seven_results) = Ret p
    /\ floordiv (List.length
                   (filter (fun r => negb (has_genre r)) seven_results) * 100)
                (List.length seven_results) = Ret q
    /\ p <= 100 /\ q <= 100
    /\ (p + q = 100 \/ p + q = 99)
    /\ (p + q = 100
        <-> (List.length (filter has_genre seven_results) * 100)
              mod (List.length seven_results) = 0).
Proof. apply (report_percentages_sum seven_results). discriminate. Defined.

Lemma main_directory_report_witness :
  written_files
    (trace (snd (main Mock.host [B_rock] (mkArgs "/music" true None) (start []))))
  = ["/music/genre_report.txt"].
Proof.
  destruct (main_directory_report Mock.host [B_rock]
              (mkArgs "/music" true None) (start []) "music"
              [File "b.flac"; Dir "live" [File "z.mp3"; File "cover.jpg"];
               File "notes.txt"; File "a.FLAC";
               Dir "demos" [Dir "old" [File "k.mp3"]; File "c.mp3"]])
    as (results & st1 & content & _ & _ & _ & _ & Hwritten);
    [discriminate | reflexivity | reflexivity | discriminate |].
  exact Hwritten.
Defined.

Lemma found_walk_begins_with_found_flat_witness :
  found_walk "/music" music
  = (found_flat "/music"
       [File "b.flac"; Dir "live" [File "z.mp3"; File "cover.jpg"];
        File "notes.txt"; File "a.FLAC";
        Dir "demos" [Dir "old" [File "k.mp3"]; File "c.mp3"]]
     ++ flat_map (fun sub => found_walk (os_path_join "/music" (fst sub))
                                        (Dir (fst sub) (snd sub)))
          [("live", [File "z.mp3"; File "cover.jpg"]);
           ("demos", [Dir "old" [File "k.mp3"]; File "c.mp3"])])%list.
Proof.
  apply (found_walk_begins_with_found_flat "/music" "music").
  - repeat constructor; simpl; intuition discriminate.
  - reflexivity.
Defined.

Lemma flat_run_reports_entry_names_witness :
  exists results st1,
    process_files Mock.host [B_rock]
      (found_flat "/music"
         [File "b.flac"; Dir "live" [File "z.mp3"]; File "notes.txt";
          File "a.FLAC"])
      (start [])
    = (Ret results, st1)
    /\ map fst results = ["a.FLAC"; "b.flac"].
Proof.
  destruct (flat_run_reports_entry_names Mock.host [B_rock] "/music"
              [File "b.flac"; Dir "live" [File "z.mp3"]; File "notes.txt";
               File "a.FLAC"] (start []))
    as (results & st1 & Heq & Hnames & _).
  - repeat constructor.
  - exists results, st1. split; [exact Heq | exact Hnames].
Defined.

Lemma main_from_options_without_providers_witness :
  main_from_options Mock.host Stored.no_catalog
    (mkFlags false false false true) Stored.bare
    (mkArgs "/music" false None) (start [])
  = (Ret tt, start []).
Proof.
  apply (main_from_options_without_providers Mock.host Stored.no_catalog
           (mkFlags false false false true) Stored.bare
           (mkArgs "/music" false None) (start []));
    reflexivity.
Defined.


Lemma handle_line_marker_without_path_witness :
  GUI.handle_line ("INFO: Found:" ++ nl) = Exc IndexError.
Proof.
  apply (handle_line_marker_without_path ("INFO: Found:" ++ nl)); reflexivity.
Defined.

(** The chain for an installation with the credentials of the social
    network and the encyclopedia packages. *)
Lemma build_providers_lastfm_and_wikipedia :
  map name (build_providers Mock.host Stored.no_catalog
              (mkFlags false false false false) Stored.lastfm_only)
  = ["Last.fm"; "Wikipedia (Track)"; "Wikipedia (Artist)"].
Proof. reflexivity. Qed.
